(** * Sparkle animations of adafruit_led_animation: model and properties

    A shallow embedding of [adafruit_led_animation/sparkle.py], the classes
    [Sparkle] and [SparklePulse], and the properties of their
    constructors, of [_recompute_color] and of [draw].

    Python objects are mutable and shared: the pixel buffer belongs to the
    driver and the animation only holds a reference to it.  The model keeps
    the buffer, the animation object and the outside world (random source,
    clock, display hardware) in one store that every method threads through,
    and a raised exception leaves the store as it was at the raise. *)

From Stdlib Require Import ZArith String Lia.
From Stdlib Require Import PrimFloat FloatOps SpecFloat.
From stdpp Require Import base list.

Local Open Scope Z_scope.

(** ** Python values *)

(** What a pixel slot or a colour attribute can hold: [None], a tuple of
    integer channels, or a list of integer channels ([SparklePulse.draw]
    builds a list). *)
Inductive pyval :=
  | PNone
  | PTuple (channels : list Z)
  | PList (channels : list Z).

Global Instance pyval_eq_dec : EqDecision pyval.
Proof. solve_decision. Defined.

(** Python's [==] on these values: structural, and a tuple never equals a
    list or [None]. *)
Definition py_eq (a b : pyval) : bool := bool_decide (a = b).

Inductive exn :=
  | ValueError (msg : string)
  | IndexError
  | TypeError
  | ZeroDivisionError
  | OverflowError
  | IOError.

Inductive result (A : Type) :=
  | Ok (a : A)
  | Raise (e : exn).
Arguments Ok {A} a.
Arguments Raise {A} e.

Definition result_bind {A B} (r : result A) (k : A -> result B) : result B :=
  match r with
  | Ok a => k a
  | Raise e => Raise e
  end.

(** [len(v)] and [v[n]] for a colour value. *)
Definition py_len (v : pyval) : result Z :=
  match v with
  | PNone => Raise TypeError
  | PTuple cs | PList cs => Ok (Z.of_nat (length cs))
  end.

Definition seq_index {A} (l : list A) (i : Z) : result A :=
  let n := Z.of_nat (length l) in
  let j := if i <? 0 then i + n else i in
  if (j <? 0) || (n <=? j) then Raise IndexError
  else match l !! Z.to_nat j with
       | Some a => Ok a
       | None => Raise IndexError
       end.

Definition py_index (v : pyval) (i : Z) : result Z :=
  match v with
  | PNone => Raise TypeError
  | PTuple cs | PList cs => seq_index cs i
  end.

(** ** The store *)

(** What the animation did to its collaborators, oldest first. *)
Inductive event :=
  | EvGet (index : Z)
  | EvSet (index : Z) (value : pyval)
  | EvShow.

(** [self] is the animation object, [pixel_object] the driver's buffer
    that [self.pixel_object] refers to.  The three collaborators are
    replayed from tapes: [entropy] feeds [random.randint], [show_faults]
    says which of the coming flushes fail ([true] is a failure; past the
    end of the tape every flush succeeds), [clock_ticks] are the
    nanoseconds by which the monotonic clock advances before each reading. *)
Record store (O : Type) := Store {
  self : O;
  pixel_object : list pyval;
  events : list event;
  entropy : list Z;
  show_faults : list bool;
  clock_now : Z;
  clock_ticks : list Z
}.
Arguments Store {O}.
Arguments self {O}.
Arguments pixel_object {O}.
Arguments events {O}.
Arguments entropy {O}.
Arguments show_faults {O}.
Arguments clock_now {O}.
Arguments clock_ticks {O}.

Definition M (O A : Type) : Type := store O -> result A * store O.

Definition ret {O A} (a : A) : M O A := fun s => (Ok a, s).

Definition bind {O A B} (m : M O A) (k : A -> M O B) : M O B :=
  fun s => match m s with
           | (Ok a, s') => k a s'
           | (Raise e, s') => (Raise e, s')
           end.

Definition raise {O A} (e : exn) : M O A := fun s => (Raise e, s).

Definition lift {O A} (r : result A) : M O A := fun s => (r, s).

Declare Scope py_scope.
Delimit Scope py_scope with py.
Notation "x <- m ;; k" := (bind m (fun x => k))
  (at level 100, m at next level, right associativity) : py_scope.
Notation "m ;;; k" := (bind m (fun _ => k))
  (at level 100, right associativity) : py_scope.
Notation "x <~ r ;; k" := (result_bind r (fun x => k))
  (at level 100, r at next level, right associativity) : py_scope.
Local Open Scope py_scope.

Definition get_self {O} : M O O := fun s => (Ok (self s), s).

Definition modify_self {O} (f : O -> O) : M O unit :=
  fun s => (Ok tt, Store (f (self s)) (pixel_object s) (events s) (entropy s)
                         (show_faults s) (clock_now s) (clock_ticks s)).

Definition log {O} (e : event) : M O unit :=
  fun s => (Ok tt, Store (self s) (pixel_object s) (events s ++ [e]) (entropy s)
                         (show_faults s) (clock_now s) (clock_ticks s)).

(** [for x in xs: body(x)] *)
Fixpoint for_each {O A} (xs : list A) (body : A -> M O unit) : M O unit :=
  match xs with
  | [] => ret tt
  | x :: xs' => body x ;;; for_each xs' body
  end.

(** [[f() for _ in range(n)]] *)
Fixpoint repeatM {O A} (n : nat) (m : M O A) : M O (list A) :=
  match n with
  | O => ret []
  | S n' => x <- m ;; xs <- repeatM n' m ;; ret (x :: xs)
  end.

(** [range(n)]; empty for [n <= 0]. *)
Definition range (n : Z) : list Z := map Z.of_nat (seq 0 (Z.to_nat n)).

(** ** The pixel buffer *)

(** [len(self.pixel_object)] *)
Definition len_pixels {O} : M O Z :=
  fun s => (Ok (Z.of_nat (length (pixel_object s))), s).

(** Where a Python sequence of length [n] keeps index [i]: negative
    indices count from the end, anything else is an [IndexError]. *)
Definition slot (n i : Z) : option nat :=
  let j := if i <? 0 then i + n else i in
  if (j <? 0) || (n <=? j) then None else Some (Z.to_nat j).

(** [self.pixel_object[i]]: the requested index is logged, in range or
    not. *)
Definition getitem {O} (i : Z) : M O pyval :=
  log (EvGet i) ;;;
  fun s => match slot (Z.of_nat (length (pixel_object s))) i with
           | Some j => match pixel_object s !! j with
                       | Some v => (Ok v, s)
                       | None => (Raise IndexError, s)
                       end
           | None => (Raise IndexError, s)
           end.

(** [self.pixel_object[i] = v] *)
Definition setitem {O} (i : Z) (v : pyval) : M O unit :=
  log (EvSet i v) ;;;
  fun s => match slot (Z.of_nat (length (pixel_object s))) i with
           | Some j => (Ok tt, Store (self s) (<[j := v]> (pixel_object s)) (events s)
                                     (entropy s) (show_faults s) (clock_now s)
                                     (clock_ticks s))
           | None => (Raise IndexError, s)
           end.

(** ** Collaborators outside the repository *)

(** [random.randint(a, b)]: an integer between [a] and [b], both included;
    [ValueError] on an empty range.  The next number of the entropy tape
    selects the value, so every value of the range can come out. *)
Definition randint {O} (a b : Z) : M O Z :=
  fun s =>
    if b <? a then (Raise (ValueError "empty range for randrange()"), s)
    else match entropy s with
         | [] => (Ok a, s)
         | x :: rest =>
             (Ok (a + x mod (b - a + 1)),
              Store (self s) (pixel_object s) (events s) rest
                    (show_faults s) (clock_now s) (clock_ticks s))
         end.

(** Modelled from the spec: [monotonic_ns], imported from the package's
    [__init__], is the monotonic clock in nanoseconds of section 6
    ("Clock: now() -> MonotonicTimestamp, nanosecond resolution"). *)
Definition monotonic_ns {O} : M O Z :=
  fun s =>
    match clock_ticks s with
    | [] => (Ok (clock_now s), s)
    | d :: rest =>
        (Ok (clock_now s + d),
         Store (self s) (pixel_object s) (events s) (entropy s)
               (show_faults s) (clock_now s + d) rest)
    end.

(** Modelled from the spec: [NANOS_PER_SECOND], imported from the
    package's [__init__]; the spec converts the nanosecond difference to
    seconds with it. *)
Definition NANOS_PER_SECOND : Z := 1000000000.

(** Modelled from the spec: [Animation.show], inherited from the base
    class in [animation.py].  It asks the driver to flush the buffer
    (section 6: "flush() -> Result<(), IOError>"); a failed flush raises. *)
Definition show {O} : M O unit :=
  log EvShow ;;;
  fun s =>
    match show_faults s with
    | [] => (Ok tt, s)
    | failed :: rest =>
        let s' := Store (self s) (pixel_object s) (events s) (entropy s)
                        rest (clock_now s) (clock_ticks s) in
        if failed then (Raise IOError, s') else (Ok tt, s')
    end.

(** Modelled from the spec: [Animation.__init__] and its [color] setter,
    in [animation.py].  Construction keeps the buffer reference, stores the
    base colour and derives the shades by calling the subclass's
    [_recompute_color] (section 3: "DerivedShades are created at
    construction and whenever the base color is reassigned").  The spec
    says nothing else of the base constructor; what it may do with the
    clock is not modelled, and no property below speaks of the clock after
    a construction that reached it. *)
Definition Animation_init {O} (set_color : pyval -> O -> O)
    (recompute_color : list Z -> M O unit) (color : list Z) : M O unit :=
  modify_self (set_color (PTuple color)) ;;;
  recompute_color color.

(** ** The shades and their repaint, shared by both classes *)

(** [tuple(color[rgb] // d for rgb in range(len(color)))] *)
Definition shade (d : Z) (color : list Z) : pyval :=
  PTuple (map (fun c => c / d) color).

(** The loop of [_recompute_color]:
<<
    for pixel in range(len(self.pixel_object)):
        if self.pixel_object[pixel] == self._half_color:
            self.pixel_object[pixel] = half_color
        elif self.pixel_object[pixel] == self._dim_color:
            self.pixel_object[pixel] = dim_color
>> *)
Definition repaint_pixel {O} (_half_color _dim_color : O -> pyval)
    (half_color dim_color : pyval) (pixel : Z) : M O unit :=
  p <- getitem pixel ;;
  o <- get_self ;;
  if py_eq p (_half_color o) then setitem pixel half_color
  else
    p' <- getitem pixel ;;
    o <- get_self ;;
    if py_eq p' (_dim_color o) then setitem pixel dim_color
    else ret tt.

Definition repaint {O} (_half_color _dim_color : O -> pyval)
    (half_color dim_color : pyval) : M O unit :=
  n <- len_pixels ;;
  for_each (range n) (repaint_pixel _half_color _dim_color half_color dim_color).

(** ** class Sparkle *)

Module Sparkle.

Record t := mk {
  _color : pyval;
  _half_color : pyval;
  _dim_color : pyval;
  _num_sparkles : Z
}.

(** The object as [__new__] hands it to [__init__]; [__init__] assigns
    every attribute before anything reads it. *)
Definition blank : t := mk PNone PNone PNone 0.

Definition set_color (v : pyval) (o : t) : t :=
  mk v (_half_color o) (_dim_color o) (_num_sparkles o).
Definition set_half_color (v : pyval) (o : t) : t :=
  mk (_color o) v (_dim_color o) (_num_sparkles o).
Definition set_dim_color (v : pyval) (o : t) : t :=
  mk (_color o) (_half_color o) v (_num_sparkles o).
Definition set_num_sparkles (n : Z) (o : t) : t :=
  mk (_color o) (_half_color o) (_dim_color o) n.

Definition _recompute_color (color : list Z) : M t unit :=
  let half_color := shade 4 color in
  let dim_color := shade 10 color in
  repaint _half_color _dim_color half_color dim_color ;;;
  modify_self (set_half_color half_color) ;;;
  modify_self (set_dim_color dim_color).

(** [speed] and [name] go to the base class and are not read here. *)
Definition __init__ (color : list Z) (num_sparkles : Z) : M t unit :=
  n <- len_pixels ;;
  if n <? 2 then raise (ValueError "Sparkle needs at least 2 pixels")
  else
    modify_self (set_half_color PNone) ;;;
    modify_self (set_dim_color PNone) ;;;
    modify_self (set_num_sparkles num_sparkles) ;;;
    Animation_init set_color _recompute_color color.

Definition draw : M t unit :=
  o <- get_self ;;
  pixels <- repeatM (Z.to_nat (_num_sparkles o))
              (n <- len_pixels ;; randint 0 (n - 2)) ;;
  for_each pixels (fun pixel => o <- get_self ;; setitem pixel (_color o)) ;;;
  show ;;;
  for_each pixels (fun pixel =>
    o <- get_self ;;
    setitem pixel (_half_color o) ;;;
    o <- get_self ;;
    setitem (pixel + 1) (_dim_color o)) ;;;
  show.

End Sparkle.

(** ** Numbers *)

(** The operations [SparklePulse] applies to numbers, collected so that
    what [draw] and [__init__] do with the buffer, the clock and the object
    can be stated whatever these operations return.  Python does them on
    floats, the instance [Binary64.num] below. *)
Class PyNum (F : Type) := {
  of_int : Z -> F;                 (* an integer literal among numbers *)
  fadd : F -> F -> F;              (* x + y *)
  fsub : F -> F -> F;              (* x - y *)
  fmul : F -> F -> F;              (* x * y *)
  fdiv : F -> F -> result F;       (* x / y *)
  fmod : F -> F -> result F;       (* x % y *)
  fgt : F -> F -> bool;            (* x > y *)
  int_truediv : Z -> Z -> result F;  (* a / b on two integers *)
  int_mul : Z -> F -> result F;    (* c * x, c an integer *)
  to_int : F -> result Z           (* int(x) *)
}.

(** map a fallible function over a list, left to right *)
Fixpoint map_result {A B} (f : A -> result B) (l : list A) : result (list B) :=
  match l with
  | [] => Ok []
  | x :: l' => y <~ f x ;; ys <~ map_result f l' ;; Ok (y :: ys)
  end.

(** *** Python floats: IEEE 754 binary64 *)

Module Binary64.

(** The float nearest to an integer (ties to even). *)
Definition float_of_Z (z : Z) : float :=
  SF2Prim (binary_normalize prec emax z 0 false).

(** C's [fmod]: the exact remainder of [x / y], with the sign of [x]. *)
Definition c_fmod (x y : float) : float :=
  match Prim2SF x, Prim2SF y with
  | S754_nan, _ | _, S754_nan => nan
  | S754_infinity _, _ => nan
  | _, S754_zero _ => nan
  | S754_zero _, _ => x
  | S754_finite _ _ _, S754_infinity _ => x
  | S754_finite sx mx ex, S754_finite _ my ey =>
      let e := Z.min ex ey in
      let r := Z.rem (Zpos mx * 2 ^ (ex - e)) (Zpos my * 2 ^ (ey - e)) in
      if r =? 0 then (if sx then neg_zero else zero)
      else SF2Prim (binary_normalize prec emax (if sx then - r else r) e false)
  end.

(** [float_rem] of CPython: the remainder takes the sign of the divisor. *)
Definition float_rem (x y : float) : result float :=
  if PrimFloat.eqb y zero then Raise ZeroDivisionError
  else
    let m := c_fmod x y in
    if negb (PrimFloat.eqb m zero) then
      if xorb (PrimFloat.ltb y zero) (PrimFloat.ltb m zero)
      then Ok (PrimFloat.add m y) else Ok m
    else Ok (if get_sign y then neg_zero else zero).

Definition float_div (x y : float) : result float :=
  if PrimFloat.eqb y zero then Raise ZeroDivisionError
  else Ok (PrimFloat.div x y).

(** [a / b] on integers: the correctly rounded quotient of the two
    integers, whatever their size, and [OverflowError] when it is too large
    for a float.  The quotient is taken with at least 55 significant bits,
    a last bit records whether the division left a remainder, and that is
    rounded once, to nearest with ties to even. *)
Definition long_true_divide (a b : Z) : result float :=
  if b =? 0 then Raise ZeroDivisionError
  else if a =? 0 then Ok (if b <? 0 then neg_zero else zero)
  else
    let negate := xorb (a <? 0) (b <? 0) in
    let k := Z.max 0 (Z.log2 (Z.abs b) - Z.log2 (Z.abs a) + 55) in
    let q := (Z.abs a * 2 ^ k) / Z.abs b in
    let sticky := if (Z.abs a * 2 ^ k) mod Z.abs b =? 0 then 0 else 1 in
    let f := SF2Prim (binary_normalize prec emax (2 * q + sticky) (- k - 1) false) in
    if is_infinity f then Raise OverflowError
    else Ok (if negate then (- f)%float else f).

(** [c * x]: the integer is converted first, and one too large for a
    float is refused. *)
Definition long_mul_float (c : Z) (x : float) : result float :=
  let fc := float_of_Z c in
  if is_infinity fc then Raise OverflowError
  else Ok (PrimFloat.mul fc x).

(** [int(x)]: truncation towards zero. *)
Definition float_trunc (x : float) : result Z :=
  match Prim2SF x with
  | S754_nan => Raise (ValueError "cannot convert float NaN to integer")
  | S754_infinity _ => Raise OverflowError
  | S754_zero _ => Ok 0
  | S754_finite s m e =>
      let a := if 0 <=? e then Zpos m * 2 ^ e else Zpos m / 2 ^ (- e) in
      Ok (if s then - a else a)
  end.

#[global] Instance num : PyNum float := {
  of_int := float_of_Z;
  fadd := PrimFloat.add;
  fsub := PrimFloat.sub;
  fmul := PrimFloat.mul;
  fdiv := float_div;
  fmod := float_rem;
  fgt := fun x y => PrimFloat.ltb y x;
  int_truediv := long_true_divide;
  int_mul := long_mul_float;
  to_int := float_trunc
}.

End Binary64.

(** ** class SparklePulse *)

Module SparklePulse.

Record t (F : Type) := mk {
  max_intensity : F;
  min_intensity : F;
  _period : F;
  _intensity_delta : F;
  _half_period : F;
  _position_factor : F;
  _bpp : Z;
  _last_update : Z;
  _cycle_position : F;
  _half_color : pyval;
  _dim_color : pyval;
  _color : pyval
}.
Arguments mk {F}.
Arguments max_intensity {F}.
Arguments min_intensity {F}.
Arguments _period {F}.
Arguments _intensity_delta {F}.
Arguments _half_period {F}.
Arguments _position_factor {F}.
Arguments _bpp {F}.
Arguments _last_update {F}.
Arguments _cycle_position {F}.
Arguments _half_color {F}.
Arguments _dim_color {F}.
Arguments _color {F}.

Section Methods.
Context {F : Type} `{PyNum F}.

(** The object before [__init__] has assigned anything. *)
Definition blank : t F :=
  mk (of_int 0) (of_int 0) (of_int 0) (of_int 0) (of_int 0) (of_int 0)
     0 0 (of_int 0) PNone PNone PNone.

Definition set_max_intensity (x : F) (o : t F) : t F :=
  mk x (min_intensity o) (_period o) (_intensity_delta o) (_half_period o)
     (_position_factor o) (_bpp o) (_last_update o) (_cycle_position o)
     (_half_color o) (_dim_color o) (_color o).
Definition set_min_intensity (x : F) (o : t F) : t F :=
  mk (max_intensity o) x (_period o) (_intensity_delta o) (_half_period o)
     (_position_factor o) (_bpp o) (_last_update o) (_cycle_position o)
     (_half_color o) (_dim_color o) (_color o).
Definition set_period (x : F) (o : t F) : t F :=
  mk (max_intensity o) (min_intensity o) x (_intensity_delta o) (_half_period o)
     (_position_factor o) (_bpp o) (_last_update o) (_cycle_position o)
     (_half_color o) (_dim_color o) (_color o).
Definition set_intensity_delta (x : F) (o : t F) : t F :=
  mk (max_intensity o) (min_intensity o) (_period o) x (_half_period o)
     (_position_factor o) (_bpp o) (_last_update o) (_cycle_position o)
     (_half_color o) (_dim_color o) (_color o).
Definition set_half_period (x : F) (o : t F) : t F :=
  mk (max_intensity o) (min_intensity o) (_period o) (_intensity_delta o) x
     (_position_factor o) (_bpp o) (_last_update o) (_cycle_position o)
     (_half_color o) (_dim_color o) (_color o).
Definition set_position_factor (x : F) (o : t F) : t F :=
  mk (max_intensity o) (min_intensity o) (_period o) (_intensity_delta o)
     (_half_period o) x (_bpp o) (_last_update o) (_cycle_position o)
     (_half_color o) (_dim_color o) (_color o).
Definition set_bpp (n : Z) (o : t F) : t F :=
  mk (max_intensity o) (min_intensity o) (_period o) (_intensity_delta o)
     (_half_period o) (_position_factor o) n (_last_update o) (_cycle_position o)
     (_half_color o) (_dim_color o) (_color o).
Definition set_last_update (n : Z) (o : t F) : t F :=
  mk (max_intensity o) (min_intensity o) (_period o) (_intensity_delta o)
     (_half_period o) (_position_factor o) (_bpp o) n (_cycle_position o)
     (_half_color o) (_dim_color o) (_color o).
Definition set_cycle_position (x : F) (o : t F) : t F :=
  mk (max_intensity o) (min_intensity o) (_period o) (_intensity_delta o)
     (_half_period o) (_position_factor o) (_bpp o) (_last_update o) x
     (_half_color o) (_dim_color o) (_color o).
Definition set_half_color (v : pyval) (o : t F) : t F :=
  mk (max_intensity o) (min_intensity o) (_period o) (_intensity_delta o)
     (_half_period o) (_position_factor o) (_bpp o) (_last_update o)
     (_cycle_position o) v (_dim_color o) (_color o).
Definition set_dim_color (v : pyval) (o : t F) : t F :=
  mk (max_intensity o) (min_intensity o) (_period o) (_intensity_delta o)
     (_half_period o) (_position_factor o) (_bpp o) (_last_update o)
     (_cycle_position o) (_half_color o) v (_color o).
Definition set_color (v : pyval) (o : t F) : t F :=
  mk (max_intensity o) (min_intensity o) (_period o) (_intensity_delta o)
     (_half_period o) (_position_factor o) (_bpp o) (_last_update o)
     (_cycle_position o) (_half_color o) (_dim_color o) v.

Definition _recompute_color (color : list Z) : M (t F) unit :=
  let half_color := shade 4 color in
  let dim_color := shade 10 color in
  repaint _half_color _dim_color half_color dim_color ;;;
  modify_self (set_half_color half_color) ;;;
  modify_self (set_dim_color dim_color).

Definition __init__ (color : list Z) (period max_intensity min_intensity : F)
    : M (t F) unit :=
  n <- len_pixels ;;
  if n <? 2 then raise (ValueError "Sparkle needs at least 2 pixels")
  else
    modify_self (set_max_intensity max_intensity) ;;;
    modify_self (set_min_intensity min_intensity) ;;;
    modify_self (set_period period) ;;;
    modify_self (set_intensity_delta (fsub max_intensity min_intensity)) ;;;
    half_period <- lift (fdiv period (of_int 2)) ;;
    modify_self (set_half_period half_period) ;;;
    position_factor <- lift (fdiv (of_int 1) half_period) ;;
    modify_self (set_position_factor position_factor) ;;;
    first <- getitem 0 ;;
    bpp <- lift (py_len first) ;;
    modify_self (set_bpp bpp) ;;;
    now <- monotonic_ns ;;
    modify_self (set_last_update now) ;;;
    modify_self (set_cycle_position (of_int 0)) ;;;
    modify_self (set_half_color PNone) ;;;
    modify_self (set_dim_color PNone) ;;;
    Animation_init set_color _recompute_color color.

(** The triangle wave of [draw]:
<<
    if pos > self._half_period:
        pos = self._period - pos
    intensity = self.min_intensity + (
        pos * self._intensity_delta * self._position_factor)
>> *)
Definition intensity (o : t F) (pos : F) : F :=
  let pos := if fgt pos (_half_period o) then fsub (_period o) pos else pos in
  fadd (min_intensity o) (fmul (fmul pos (_intensity_delta o)) (_position_factor o)).

(** [[int(self.color[n] * intensity) for n in range(self._bpp)]] *)
Definition scaled (o : t F) (intensity : F) : result (list Z) :=
  map_result (fun n => c <~ py_index (_color o) n ;;
                       x <~ int_mul c intensity ;;
                       to_int x)
             (range (_bpp o)).

Definition draw : M (t F) unit :=
  n <- len_pixels ;;
  pixel <- randint 0 (n - 2) ;;
  now <- monotonic_ns ;;
  o <- get_self ;;
  time_since_last_draw <- lift (int_truediv (now - _last_update o) NANOS_PER_SECOND) ;;
  modify_self (set_last_update now) ;;;
  o <- get_self ;;
  pos <- lift (fmod (fadd (_cycle_position o) time_since_last_draw) (_period o)) ;;
  modify_self (set_cycle_position pos) ;;;
  o <- get_self ;;
  color <- lift (scaled o (intensity o pos)) ;;
  setitem pixel (PList color) ;;;
  show.

End Methods.

End SparklePulse.

(** ** Running a method *)

(** A store at the start of a run: nothing logged yet, the clock at zero. *)
Definition world {O} (o : O) (buffer : list pyval) (rng : list Z)
    (faults : list bool) (ticks : list Z) : store O :=
  Store o buffer [] rng faults 0 ticks.

Global Instance event_eq_dec : EqDecision event.
Proof. solve_decision. Defined.

Definition count_shows (evs : list event) : nat :=
  length (filter (fun e => e = EvShow) evs).

(** An event stays inside a buffer of [n] slots. *)
Definition in_buffer (n : Z) (e : event) : Prop :=
  match e with
  | EvGet i | EvSet i _ => 0 <= i <= n - 1
  | EvShow => True
  end.

(** The [k]-th flush from now on fails. *)
Definition flush_fails {O} (k : nat) (s : store O) : Prop :=
  show_faults s !! k = Some true.

Global Instance flush_fails_dec {O} k (s : store O) : Decision (flush_fails k s).
Proof. unfold flush_fails. apply _. Defined.

(** *** The repaint as section 4.1 words it *)

(** "for each pixel whose current value equals the previous half shade,
    overwrite with the new half shade; for each pixel equal to the previous
    dim shade, overwrite with the new dim shade (mutually exclusive)". *)
Definition recompute_spec (old_half old_dim half_color dim_color : pyval)
    (buffer : list pyval) : list pyval :=
  map (fun p => if py_eq p old_half then half_color
                else if py_eq p old_dim then dim_color
                else p) buffer.

(** The buffer traffic of one scan starting at slot [k]: one read per
    pixel, a second read only when the first comparison failed. *)
Fixpoint scan_events (old_half old_dim half_color dim_color : pyval)
    (k : nat) (buffer : list pyval) : list event :=
  match buffer with
  | [] => []
  | p :: rest =>
      (EvGet (Z.of_nat k) ::
         (if py_eq p old_half then [EvSet (Z.of_nat k) half_color]
          else EvGet (Z.of_nat k) ::
                 (if py_eq p old_dim then [EvSet (Z.of_nat k) dim_color] else [])))
      ++ scan_events old_half old_dim half_color dim_color (S k) rest
  end.

(** The writes of [Sparkle.draw], as functions of the chosen pixels. *)
Definition bright_events (color : pyval) (pixels : list Z) : list event :=
  map (fun p => EvSet p color) pixels.

Definition decay_events (half dim : pyval) (pixels : list Z) : list event :=
  flat_map (fun p => [EvSet p half; EvSet (p + 1) dim]) pixels.

Definition bright_buffer (color : pyval) (pixels : list Z) (buffer : list pyval)
    : list pyval :=
  foldl (fun b p => <[Z.to_nat p := color]> b) buffer pixels.

Definition decay_buffer (half dim : pyval) (pixels : list Z) (buffer : list pyval)
    : list pyval :=
  foldl (fun b p => <[Z.to_nat (p + 1) := dim]> (<[Z.to_nat p := half]> b))
        buffer pixels.

(** How often slot [i] is read, and the writes among some events. *)
Definition reads_of (i : Z) (evs : list event) : nat :=
  length (filter (fun e => e = EvGet i) evs).

Definition is_write (e : event) : bool :=
  match e with EvSet _ _ => true | _ => false end.

Definition writes (evs : list event) : list event :=
  filter (fun e => is_write e = true) evs.

(** *** One tick of SparklePulse *)

(** The reading the clock gives next. *)
Definition next_reading {O} (s : store O) : Z :=
  match clock_ticks s with
  | [] => clock_now s
  | d :: _ => clock_now s + d
  end.

(** The arithmetic of one [SparklePulse.draw] at clock reading [now], in
    the order [draw] does it: the elapsed seconds, the new cycle position,
    and the colour for the chosen pixel. *)
Definition tick {F} `{PyNum F} (o : SparklePulse.t F) (now : Z)
    : result (F * list Z) :=
  dt <~ int_truediv (now - SparklePulse._last_update o) NANOS_PER_SECOND ;;
  pos <~ fmod (fadd (SparklePulse._cycle_position o) dt) (SparklePulse._period o) ;;
  color <~ SparklePulse.scaled o (SparklePulse.intensity o pos) ;;
  Ok (pos, color).

(** The derived attributes are the ones [__init__] computes from the
    period and the two intensities. *)
Definition configured {F} `{PyNum F} (o : SparklePulse.t F) : Prop :=
  SparklePulse._intensity_delta o
  = fsub (SparklePulse.max_intensity o) (SparklePulse.min_intensity o)
  /\ fdiv (SparklePulse._period o) (of_int 2) = Ok (SparklePulse._half_period o)
  /\ fdiv (of_int 1) (SparklePulse._half_period o)
     = Ok (SparklePulse._position_factor o).

(** *** Worked configurations *)

(** Scenario 2 of the spec, on floats: colour (100, 100, 100), period 4,
    intensities from 0 to 1, first drawn two seconds after construction. *)
Definition scenario_two : store (SparklePulse.t float) :=
  snd (SparklePulse.__init__ [100; 100; 100] 4%float 1%float 0%float
         (world SparklePulse.blank (replicate 5 (PTuple [0; 0; 0])) [2] []
                [0; 2000000000])).

(** A strip of two RGBW pixels, on which a pulse of the RGB colour
    (255, 0, 0) is built and drawn one second later. *)
Definition rgbw_strip : store (SparklePulse.t float) :=
  world SparklePulse.blank (replicate 2 (PTuple [0; 0; 0; 0])) [] [] [0; 1000000000].

(** Five RGB pixels; the pulse is drawn 2.5 seconds after construction,
    half of the default period of 5. *)
Definition half_period_strip : store (SparklePulse.t float) :=
  world SparklePulse.blank (replicate 5 (PTuple [0; 0; 0])) [] [] [0; 2500000000].

(** The double nearest to 0.7. *)
Definition seven_tenths : float := 0x1.6666666666666p-1%float.

(** *** What a tick of Sparkle leaves behind *)

(** Slot [j] is one of the slots the tick writes: a chosen pixel or the
    right neighbour of one. *)
Definition touched (pixels : list Z) (j : nat) : Prop :=
  Exists (fun p => j = Z.to_nat p \/ j = Z.to_nat (p + 1)) pixels.

(** Slot [j] holds one of the two decayed shades. *)
Definition decayed (half dim : pyval) (buffer : list pyval) (j : nat) : Prop :=
  buffer !! j = Some half \/ buffer !! j = Some dim.

(** *** What a tick of SparklePulse may change *)

(** Two pulse objects agree on everything but [_last_update] and
    [_cycle_position]. *)
Definition same_config {F} (o o' : SparklePulse.t F) : Prop :=
  SparklePulse.max_intensity o' = SparklePulse.max_intensity o
  /\ SparklePulse.min_intensity o' = SparklePulse.min_intensity o
  /\ SparklePulse._period o' = SparklePulse._period o
  /\ SparklePulse._intensity_delta o' = SparklePulse._intensity_delta o
  /\ SparklePulse._half_period o' = SparklePulse._half_period o
  /\ SparklePulse._position_factor o' = SparklePulse._position_factor o
  /\ SparklePulse._bpp o' = SparklePulse._bpp o
  /\ SparklePulse._half_color o' = SparklePulse._half_color o
  /\ SparklePulse._dim_color o' = SparklePulse._dim_color o
  /\ SparklePulse._color o' = SparklePulse._color o.

(** The smallest positive double, [2^-1074]. *)
Definition smallest_double : float := 0x1p-1074%float.

(** * Properties *)

(** ** The monad and the buffer *)

Lemma bind_ok {O A B} (m : M O A) (k : A -> M O B) s a s' :
  m s = (Ok a, s') -> bind m k s = k a s'.
Proof. unfold bind. intros ->. reflexivity. Qed.

Lemma bind_raise {O A B} (m : M O A) (k : A -> M O B) s e s' :
  m s = (Raise e, s') -> bind m k s = (Raise e, s').
Proof. unfold bind. intros ->. reflexivity. Qed.

Lemma bind_step {O A B} (m : M O A) (k : A -> M O B) s a s' r :
  m s = (Ok a, s') -> k a s' = r -> bind m k s = r.
Proof. intros Hm <-. apply bind_ok. exact Hm. Qed.

Lemma bind_stop {O A B} (m : M O A) (k : A -> M O B) s e s' r :
  m s = (Raise e, s') -> (Raise e, s') = r -> bind m k s = r.
Proof. intros Hm <-. apply bind_raise. exact Hm. Qed.

(** Run the first action of a sequence. *)
Ltac tidy :=
  cbv beta;
  cbn [self pixel_object events entropy show_faults clock_now clock_ticks].
Tactic Notation "step" "by" tactic3(tac) := eapply bind_step; [tac | tidy].
Tactic Notation "stop" "by" tactic3(tac) := eapply bind_stop; [tac | tidy].
Ltac step := step by reflexivity.


Lemma slot_in_range n i : 0 <= i < n -> slot n i = Some (Z.to_nat i).
Proof.
  intros Hi. unfold slot.
  destruct (Z.ltb_spec i 0); [lia|].
  destruct (Z.ltb_spec i 0); [lia|].
  destruct (Z.leb_spec n i); [lia|]. reflexivity.
Qed.

Lemma getitem_in_range {O} (o : O) buf ev en fl cn ct i v :
  0 <= i -> buf !! Z.to_nat i = Some v ->
  getitem i (Store o buf ev en fl cn ct)
  = (Ok v, Store o buf (ev ++ [EvGet i]) en fl cn ct).
Proof.
  intros Hi Hv. unfold getitem, bind, log. simpl.
  rewrite slot_in_range.
  - rewrite Hv. reflexivity.
  - apply lookup_lt_Some in Hv. lia.
Qed.

Lemma setitem_in_range {O} (o : O) buf ev en fl cn ct i v :
  0 <= i < Z.of_nat (length buf) ->
  setitem i v (Store o buf ev en fl cn ct)
  = (Ok tt, Store o (<[Z.to_nat i := v]> buf) (ev ++ [EvSet i v]) en fl cn ct).
Proof.
  intros Hi. unfold setitem, bind, log. simpl.
  rewrite slot_in_range by assumption. reflexivity.
Qed.

Lemma show_run {O} (o : O) buf ev en fl cn ct :
  show (Store o buf ev en fl cn ct)
  = (match fl with true :: _ => Raise IOError | _ => Ok tt end,
     Store o buf (ev ++ [EvShow]) en (tail fl) cn ct).
Proof. unfold show, bind, log. simpl. destruct fl as [|[] ?]; reflexivity. Qed.

(** ** The repaint scan *)

Section Repaint.
Context {O : Type}.
Variables _half_color _dim_color : O -> pyval.
Variables half_color dim_color : pyval.

Local Abbreviation fresh o :=
  (recompute_spec (_half_color o) (_dim_color o) half_color dim_color).
Local Abbreviation traffic o :=
  (scan_events (_half_color o) (_dim_color o) half_color dim_color).

(** One pixel: the slot after [pre] holds [p]. *)
Lemma repaint_pixel_run (o : O) pre p suf ev en fl cn ct :
  repaint_pixel _half_color _dim_color half_color dim_color (Z.of_nat (length pre))
    (Store o (pre ++ p :: suf) ev en fl cn ct)
  = (Ok tt, Store o (pre ++ fresh o [p] ++ suf)
                  (ev ++ traffic o (length pre) [p]) en fl cn ct).
Proof.
  assert (Hp : (pre ++ p :: suf) !! Z.to_nat (Z.of_nat (length pre)) = Some p).
  { rewrite Nat2Z.id. apply list_lookup_middle. reflexivity. }
  assert (Hlen : 0 <= Z.of_nat (length pre) < Z.of_nat (length (pre ++ p :: suf))).
  { rewrite length_app. simpl. lia. }
  assert (Hins : forall v, <[Z.to_nat (Z.of_nat (length pre)) := v]> (pre ++ p :: suf)
                           = pre ++ v :: suf).
  { intros v. rewrite Nat2Z.id.
    rewrite <- (Nat.add_0_r (length pre)). rewrite insert_app_r. reflexivity. }
  unfold repaint_pixel.
  step by (apply getitem_in_range; [lia | exact Hp]). step.
  simpl. destruct (py_eq p (_half_color o)).
  - rewrite setitem_in_range by exact Hlen.
    rewrite Hins, <- app_assoc. reflexivity.
  - step by (apply getitem_in_range; [lia | exact Hp]). step.
    destruct (py_eq p (_dim_color o)).
    + rewrite setitem_in_range by exact Hlen.
      rewrite Hins, <- !app_assoc. reflexivity.
    + unfold ret. rewrite <- !app_assoc. reflexivity.
Qed.

Lemma for_each_repaint (o : O) suf : forall pre ev en fl cn ct,
  for_each (map Z.of_nat (seq (length pre) (length suf)))
    (repaint_pixel _half_color _dim_color half_color dim_color)
    (Store o (pre ++ suf) ev en fl cn ct)
  = (Ok tt, Store o (pre ++ fresh o suf) (ev ++ traffic o (length pre) suf)
                  en fl cn ct).
Proof.
  induction suf as [|p suf IH]; intros pre ev en fl cn ct.
  - simpl. rewrite !app_nil_r. reflexivity.
  - cbn [length seq map for_each].
    step by apply repaint_pixel_run.
    specialize (IH (pre ++ fresh o [p])).
    rewrite length_app in IH. simpl in IH.
    replace (length pre + 1)%nat with (S (length pre)) in IH by lia.
    rewrite (app_assoc pre (fresh o [p]) suf). simpl. simpl in IH. rewrite IH.
    f_equal. f_equal.
    + rewrite <- app_assoc. reflexivity.
    + rewrite <- app_assoc. simpl.
      destruct (py_eq p (_half_color o)); [reflexivity|].
      destruct (py_eq p (_dim_color o)); reflexivity.
Qed.

(** The whole scan computes [recompute_spec] and reads the buffer front
    to back. *)
Lemma repaint_run (o : O) buf ev en fl cn ct :
  repaint _half_color _dim_color half_color dim_color (Store o buf ev en fl cn ct)
  = (Ok tt, Store o (fresh o buf) (ev ++ traffic o 0 buf) en fl cn ct).
Proof.
  unfold repaint, bind, len_pixels, range. simpl.
  rewrite Nat2Z.id. apply (for_each_repaint o buf []).
Qed.

End Repaint.

Lemma reads_of_app i evs1 evs2 :
  reads_of i (evs1 ++ evs2) = (reads_of i evs1 + reads_of i evs2)%nat.
Proof. unfold reads_of. rewrite filter_app, length_app. reflexivity. Qed.

Lemma reads_of_get i j evs :
  reads_of (Z.of_nat i) (EvGet (Z.of_nat j) :: evs)
  = ((if decide (i = j) then 1 else 0) + reads_of (Z.of_nat i) evs)%nat.
Proof.
  unfold reads_of. rewrite filter_cons.
  destruct (decide (i = j)) as [->|Hne].
  - rewrite decide_True by reflexivity. reflexivity.
  - rewrite decide_False; [reflexivity|].
    intros Heq. apply Hne. injection Heq. lia.
Qed.

Lemma reads_of_set i j v evs :
  reads_of i (EvSet j v :: evs) = reads_of i evs.
Proof. unfold reads_of. rewrite filter_cons. rewrite decide_False; [reflexivity|discriminate]. Qed.

(** How often the scan reads a slot: once if the pixel is the old half
    shade, twice otherwise. *)
Lemma scan_events_reads old_half old_dim half_color dim_color buf : forall k i p,
  buf !! i = Some p ->
  reads_of (Z.of_nat (k + i))
           (scan_events old_half old_dim half_color dim_color k buf)
  = if py_eq p old_half then 1%nat else 2%nat.
Proof.
  assert (Hout : forall buf k j, (j < k)%nat ->
            reads_of (Z.of_nat j)
              (scan_events old_half old_dim half_color dim_color k buf) = 0%nat).
  { clear buf. induction buf as [|q buf IH]; intros k j Hj; [reflexivity|].
    cbn [scan_events]. rewrite reads_of_app, (IH (S k) j) by lia.
    rewrite reads_of_get, decide_False by lia.
    destruct (py_eq q old_half).
    - rewrite reads_of_set. reflexivity.
    - rewrite reads_of_get, decide_False by lia.
      destruct (py_eq q old_dim); [rewrite reads_of_set|]; reflexivity. }
  induction buf as [|q buf IH]; intros k i p Hp; [discriminate|].
  cbn [scan_events]. rewrite reads_of_app.
  destruct i as [|i]; simpl in Hp.
  - injection Hp as ->. rewrite Nat.add_0_r.
    rewrite (Hout buf (S k) k) by lia.
    rewrite reads_of_get, decide_True by reflexivity.
    destruct (py_eq p old_half).
    + rewrite reads_of_set. reflexivity.
    + rewrite reads_of_get, decide_True by reflexivity.
      destruct (py_eq p old_dim); [rewrite reads_of_set|]; reflexivity.
  - replace (k + S i)%nat with (S k + i)%nat by lia.
    rewrite (IH (S k) i p Hp).
    rewrite reads_of_get, decide_False by lia.
    destruct (py_eq q old_half).
    + rewrite reads_of_set. reflexivity.
    + rewrite reads_of_get, decide_False by lia.
      destruct (py_eq q old_dim); [rewrite reads_of_set|]; reflexivity.
Qed.

(** ** Sparkle._recompute_color *)

Lemma recompute_color_run o buf ev en fl cn ct color :
  Sparkle._recompute_color color (Store o buf ev en fl cn ct)
  = (Ok tt,
     Store (Sparkle.mk (Sparkle._color o) (shade 4 color) (shade 10 color)
                       (Sparkle._num_sparkles o))
           (recompute_spec (Sparkle._half_color o) (Sparkle._dim_color o)
                           (shade 4 color) (shade 10 color) buf)
           (ev ++ scan_events (Sparkle._half_color o) (Sparkle._dim_color o)
                              (shade 4 color) (shade 10 color) 0 buf)
           en fl cn ct).
Proof.
  unfold Sparkle._recompute_color.
  step by apply repaint_run. reflexivity.
Qed.

(** Repainting with the shades already in place changes nothing. *)
Lemma recompute_spec_same half dim buf : recompute_spec half dim half dim buf = buf.
Proof.
  unfold recompute_spec. induction buf as [|p buf IH]; [reflexivity|].
  simpl. rewrite IH. f_equal. unfold py_eq.
  destruct (bool_decide_reflect (p = half)) as [->|_]; [reflexivity|].
  destruct (bool_decide_reflect (p = dim)) as [->|_]; reflexivity.
Qed.

(** With both old shades unset only a [None] pixel can match. *)
Lemma recompute_spec_unset half dim buf :
  Forall (fun p => p <> PNone) buf -> recompute_spec PNone PNone half dim buf = buf.
Proof.
  unfold recompute_spec. induction 1 as [|p buf Hp _ IH]; [reflexivity|].
  simpl. rewrite IH. f_equal. unfold py_eq.
  rewrite bool_decide_eq_false_2 by exact Hp. reflexivity.
Qed.

Lemma scan_events_unset half dim buf : forall k,
  Forall (fun p => p <> PNone) buf ->
  writes (scan_events PNone PNone half dim k buf) = [].
Proof.
  induction buf as [|p buf IH]; intros k Hbuf; [reflexivity|].
  inversion Hbuf as [|? ? Hp Hrest]; subst.
  cbn [scan_events]. unfold writes. rewrite filter_app.
  fold (writes (scan_events PNone PNone half dim (S k) buf)).
  rewrite (IH (S k) Hrest), app_nil_r.
  unfold py_eq. rewrite bool_decide_eq_false_2 by exact Hp.
  reflexivity.
Qed.

(** C2: [_recompute_color(color)] derives half = color // 4 and
    dim = color // 10 channel by channel, and its single front-to-back scan
    is the repaint of section 4.1: a pixel equal to the previous half shade
    gets the new half shade, otherwise one equal to the previous dim shade
    gets the new dim shade, otherwise it stays.  The two tests exclude each
    other: a pixel that matches the old half shade is read once and never
    compared with the old dim shade, any other pixel is read twice. *)
Theorem recompute_color_repaints (s : store Sparkle.t) (color : list Z) :
  let old_half := Sparkle._half_color (self s) in
  let old_dim := Sparkle._dim_color (self s) in
  let half := PTuple (map (fun c => c / 4) color) in
  let dim := PTuple (map (fun c => c / 10) color) in
  exists s' scan,
    Sparkle._recompute_color color s = (Ok tt, s')
    /\ Sparkle._half_color (self s') = half
    /\ Sparkle._dim_color (self s') = dim
    /\ pixel_object s' = recompute_spec old_half old_dim half dim (pixel_object s)
    /\ events s' = events s ++ scan
    /\ scan = scan_events old_half old_dim half dim 0 (pixel_object s)
    /\ forall i p, pixel_object s !! i = Some p ->
         reads_of (Z.of_nat i) scan = (if py_eq p old_half then 1%nat else 2%nat)
         /\ pixel_object s' !! i
            = Some (if py_eq p old_half then half
                    else if py_eq p old_dim then dim else p).
Proof.
  destruct s as [o buf ev en fl cn ct]. cbv zeta. cbn [self pixel_object events].
  eexists _, _. split; [apply recompute_color_run|].
  cbn [self pixel_object events Sparkle._half_color Sparkle._dim_color].
  do 5 (split; [reflexivity|]).
  intros i p Hp. split.
  - apply (scan_events_reads _ _ _ _ buf 0 i p Hp).
  - unfold recompute_spec. rewrite list_lookup_fmap, Hp. reflexivity.
Qed.

(** C7: a second [_recompute_color] with the same colour leaves the buffer
    as the first one left it. *)
Theorem recompute_color_twice (s : store Sparkle.t) (color : list Z) :
  exists s1 s2,
    Sparkle._recompute_color color s = (Ok tt, s1)
    /\ Sparkle._recompute_color color s1 = (Ok tt, s2)
    /\ pixel_object s2 = pixel_object s1
    /\ self s2 = self s1.
Proof.
  destruct s as [o buf ev en fl cn ct].
  eexists _, _. split; [apply recompute_color_run|].
  split; [apply recompute_color_run|].
  cbn [self pixel_object Sparkle._half_color Sparkle._dim_color Sparkle._color
       Sparkle._num_sparkles].
  split; [apply recompute_spec_same | reflexivity].
Qed.

(** C10: while both stored shades are still [None], as [__init__] leaves
    them, [_recompute_color] writes to no pixel and leaves the buffer as it
    was, provided no pixel is [None]; it only installs the two new shades. *)
Theorem first_recompute_keeps_buffer (s : store Sparkle.t) (color : list Z) :
  Sparkle._half_color (self s) = PNone ->
  Sparkle._dim_color (self s) = PNone ->
  Forall (fun p => p <> PNone) (pixel_object s) ->
  exists s' scan,
    Sparkle._recompute_color color s = (Ok tt, s')
    /\ pixel_object s' = pixel_object s
    /\ events s' = events s ++ scan /\ writes scan = []
    /\ self s' = Sparkle.set_dim_color (shade 10 color)
                   (Sparkle.set_half_color (shade 4 color) (self s)).
Proof.
  destruct s as [o buf ev en fl cn ct]. cbn [self pixel_object events].
  intros Hhalf Hdim Hbuf.
  eexists _, _. split; [apply recompute_color_run|].
  cbn [self pixel_object events]. rewrite Hhalf, Hdim.
  split; [apply recompute_spec_unset; assumption|].
  split; [reflexivity|].
  split; [apply scan_events_unset; assumption|].
  reflexivity.
Qed.

Lemma first_recompute_keeps_buffer_witness :
  exists s' scan,
    Sparkle._recompute_color [255; 0; 0]
      (world Sparkle.blank [PTuple [0; 0; 0]; PTuple [63; 0; 0]] [] [] [])
    = (Ok tt, s')
    /\ pixel_object s' = [PTuple [0; 0; 0]; PTuple [63; 0; 0]]
    /\ events s' = [] ++ scan /\ writes scan = []
    /\ self s' = Sparkle.mk PNone (PTuple [63; 0; 0]) (PTuple [25; 0; 0]) 0.
Proof.
  apply (first_recompute_keeps_buffer
           (world Sparkle.blank [PTuple [0; 0; 0]; PTuple [63; 0; 0]] [] [] [])
           [255; 0; 0]).
  - reflexivity.
  - reflexivity.
  - repeat constructor; discriminate.
Defined.

(** ** Sparkle.draw *)

(** The comprehension that chooses the pixels: [k] draws, each between
    [0] and [len - 2], consuming entropy only. *)
Lemma choose_pixels_run {O} (o : O) buf ev fl cn ct (k : nat) : forall en,
  2 <= Z.of_nat (length buf) ->
  exists pixels en',
    repeatM k (n <- len_pixels ;; randint 0 (n - 2)) (Store o buf ev en fl cn ct)
    = (Ok pixels, Store o buf ev en' fl cn ct)
    /\ length pixels = k
    /\ Forall (fun p => 0 <= p <= Z.of_nat (length buf) - 2) pixels.
Proof.
  induction k as [|k IH]; intros en Hlen.
  - exists [], en. repeat split. constructor.
  - assert (Hpick : exists p en1,
        (n <- len_pixels ;; randint 0 (n - 2)) (Store o buf ev en fl cn ct)
        = (Ok p, Store o buf ev en1 fl cn ct)
        /\ 0 <= p <= Z.of_nat (length buf) - 2).
    { unfold bind, len_pixels, randint. cbn [pixel_object entropy].
      destruct (Z.ltb_spec (Z.of_nat (length buf) - 2) 0); [lia|].
      destruct en as [|x en1].
      - exists 0, []. split; [reflexivity | lia].
      - exists (0 + x mod (Z.of_nat (length buf) - 2 - 0 + 1)), en1.
        split; [reflexivity|].
        pose proof (Z.mod_pos_bound x (Z.of_nat (length buf) - 2 - 0 + 1)). lia. }
    destruct Hpick as (p & en1 & Hrun & Hp).
    destruct (IH en1 Hlen) as (pixels & en' & Hrest & Hk & Hall).
    exists (p :: pixels), en'. split; [|split].
    + cbn [repeatM]. erewrite bind_ok by exact Hrun.
      erewrite bind_ok by exact Hrest. reflexivity.
    + simpl. congruence.
    + constructor; assumption.
Qed.

Lemma bright_buffer_length color pixels : forall buf,
  length (bright_buffer color pixels buf) = length buf.
Proof.
  unfold bright_buffer. induction pixels as [|p pixels IH]; intros buf; [reflexivity|].
  simpl. rewrite IH. apply length_insert.
Qed.

Lemma decay_buffer_length half dim pixels : forall buf,
  length (decay_buffer half dim pixels buf) = length buf.
Proof.
  unfold decay_buffer. induction pixels as [|p pixels IH]; intros buf; [reflexivity|].
  simpl. rewrite IH. rewrite !length_insert. reflexivity.
Qed.

(** First loop: [self.pixel_object[pixel] = self._color]. *)
Lemma bright_run (o : Sparkle.t) en fl cn ct pixels : forall buf ev,
  Forall (fun p => 0 <= p <= Z.of_nat (length buf) - 2) pixels ->
  for_each pixels (fun pixel => o <- get_self ;; setitem pixel (Sparkle._color o))
    (Store o buf ev en fl cn ct)
  = (Ok tt, Store o (bright_buffer (Sparkle._color o) pixels buf)
                  (ev ++ bright_events (Sparkle._color o) pixels) en fl cn ct).
Proof.
  induction pixels as [|p pixels IH]; intros buf ev Hall.
  - simpl. rewrite app_nil_r. reflexivity.
  - inversion Hall as [|? ? Hp Hrest]; subst.
    cbn [for_each]. erewrite bind_ok.
    2:{ erewrite bind_ok by reflexivity. cbn [self].
        apply setitem_in_range. lia. }
    rewrite IH by (rewrite length_insert; exact Hrest).
    unfold bright_buffer, bright_events. simpl.
    rewrite <- app_assoc. reflexivity.
Qed.

(** Second loop: the pixel gets the half shade, its right neighbour the
    dim shade. *)
Lemma decay_run (o : Sparkle.t) en fl cn ct pixels : forall buf ev,
  Forall (fun p => 0 <= p <= Z.of_nat (length buf) - 2) pixels ->
  for_each pixels (fun pixel =>
      o <- get_self ;;
      setitem pixel (Sparkle._half_color o) ;;;
      o <- get_self ;;
      setitem (pixel + 1) (Sparkle._dim_color o))
    (Store o buf ev en fl cn ct)
  = (Ok tt, Store o (decay_buffer (Sparkle._half_color o) (Sparkle._dim_color o)
                                  pixels buf)
                  (ev ++ decay_events (Sparkle._half_color o) (Sparkle._dim_color o)
                                      pixels)
                  en fl cn ct).
Proof.
  induction pixels as [|p pixels IH]; intros buf ev Hall.
  - simpl. rewrite app_nil_r. reflexivity.
  - inversion Hall as [|? ? Hp Hrest]; subst.
    cbn [for_each]. erewrite bind_ok.
    2:{ erewrite bind_ok by reflexivity. cbn [self].
        erewrite bind_ok by (apply setitem_in_range; lia).
        erewrite bind_ok by reflexivity. cbn [self].
        apply setitem_in_range. rewrite length_insert. lia. }
    rewrite IH by (rewrite !length_insert; exact Hrest).
    unfold decay_buffer, decay_events. simpl.
    rewrite <- !app_assoc. reflexivity.
Qed.

(** One tick, whatever the two flushes do. *)
Lemma draw_run (o : Sparkle.t) buf ev en fl cn ct :
  2 <= Z.of_nat (length buf) ->
  let color := Sparkle._color o in
  let half := Sparkle._half_color o in
  let dim := Sparkle._dim_color o in
  exists pixels en',
    length pixels = Z.to_nat (Sparkle._num_sparkles o)
    /\ Forall (fun p => 0 <= p <= Z.of_nat (length buf) - 2) pixels
    /\ Sparkle.draw (Store o buf ev en fl cn ct)
       = match fl with
         | true :: fl' =>
             (Raise IOError,
              Store o (bright_buffer color pixels buf)
                    (ev ++ bright_events color pixels ++ [EvShow]) en' fl' cn ct)
         | _ =>
             (match tail fl with true :: _ => Raise IOError | _ => Ok tt end,
              Store o (decay_buffer half dim pixels (bright_buffer color pixels buf))
                    (ev ++ bright_events color pixels ++ [EvShow]
                        ++ decay_events half dim pixels ++ [EvShow])
                    en' (tail (tail fl)) cn ct)
         end.
Proof.
  intros Hlen color half dim.
  destruct (choose_pixels_run o buf ev fl cn ct
              (Z.to_nat (Sparkle._num_sparkles o)) en Hlen)
    as (pixels & en' & Hchoose & Hk & Hall).
  exists pixels, en'. split; [exact Hk|]. split; [exact Hall|].
  unfold Sparkle.draw.
  erewrite bind_ok by reflexivity. cbn [self].
  erewrite bind_ok by exact Hchoose.
  erewrite bind_ok by (apply bright_run; exact Hall).
  assert (Hall' : Forall (fun p => 0 <= p
                    <= Z.of_nat (length (bright_buffer color pixels buf)) - 2) pixels).
  { rewrite bright_buffer_length. exact Hall. }
  destruct fl as [|[] fl'].
  - erewrite bind_ok by (rewrite show_run; reflexivity).
    erewrite bind_ok by (apply decay_run; exact Hall').
    rewrite show_run. cbn [tail]. rewrite <- !app_assoc. reflexivity.
  - erewrite bind_raise by (rewrite show_run; reflexivity).
    cbn [tail]. rewrite <- !app_assoc. reflexivity.
  - erewrite bind_ok by (rewrite show_run; reflexivity).
    erewrite bind_ok by (apply decay_run; exact Hall').
    rewrite show_run. cbn [tail]. rewrite <- !app_assoc. reflexivity.
Qed.

Lemma count_shows_app evs1 evs2 :
  count_shows (evs1 ++ evs2) = (count_shows evs1 + count_shows evs2)%nat.
Proof. unfold count_shows. rewrite filter_app, length_app. reflexivity. Qed.

Lemma count_shows_bright color pixels : count_shows (bright_events color pixels) = 0%nat.
Proof. induction pixels as [|p pixels IH]; [reflexivity | exact IH]. Qed.

Lemma count_shows_decay half dim pixels :
  count_shows (decay_events half dim pixels) = 0%nat.
Proof. induction pixels as [|p pixels IH]; [reflexivity | exact IH]. Qed.

Lemma bright_events_in_buffer n color pixels :
  Forall (fun p => 0 <= p <= n - 2) pixels ->
  Forall (in_buffer n) (bright_events color pixels).
Proof.
  induction 1 as [|p pixels Hp _ IH]; [constructor|].
  constructor; [simpl; lia | exact IH].
Qed.

Lemma decay_events_in_buffer n half dim pixels :
  Forall (fun p => 0 <= p <= n - 2) pixels ->
  Forall (in_buffer n) (decay_events half dim pixels).
Proof.
  induction 1 as [|p pixels Hp _ IH]; [constructor|].
  simpl. constructor; [simpl; lia|]. constructor; [simpl; lia | exact IH].
Qed.

(** A slot that holds the base colour keeps it through the first loop. *)
Lemma bright_buffer_keeps color pixels : forall buf j,
  buf !! j = Some color -> bright_buffer color pixels buf !! j = Some color.
Proof.
  unfold bright_buffer. induction pixels as [|p pixels IH]; intros buf j Hj; [exact Hj|].
  simpl. apply IH.
  destruct (decide (Z.to_nat p = j)) as [<-|Hne].
  - apply list_lookup_insert_eq. apply lookup_lt_Some in Hj. exact Hj.
  - rewrite list_lookup_insert_ne by exact Hne. exact Hj.
Qed.

Lemma bright_buffer_holds color pixels : forall buf,
  Forall (fun p => 0 <= p <= Z.of_nat (length buf) - 2) pixels ->
  Forall (fun p => bright_buffer color pixels buf !! Z.to_nat p = Some color) pixels.
Proof.
  induction pixels as [|p pixels IH]; intros buf Hall; [constructor|].
  inversion Hall as [|? ? Hp Hrest]; subst. constructor.
  - change (bright_buffer color (p :: pixels) buf)
      with (bright_buffer color pixels (<[Z.to_nat p := color]> buf)).
    apply bright_buffer_keeps, list_lookup_insert_eq. lia.
  - change (bright_buffer color (p :: pixels) buf)
      with (bright_buffer color pixels (<[Z.to_nat p := color]> buf)).
    apply IH. rewrite length_insert. exact Hrest.
Qed.

(** C1: on a buffer of at least two pixels and for any sparkle count
    [>= 0], a [draw()] whose first flush returns asks for exactly two
    flushes: one after the writes of the base colour and one after the
    writes of the half and dim shades.  The second request is made whether
    or not it then succeeds. *)
Theorem draw_flushes_twice (s : store Sparkle.t) :
  2 <= Z.of_nat (length (pixel_object s)) ->
  0 <= Sparkle._num_sparkles (self s) ->
  ~ flush_fails 0 s ->
  exists pixels r s',
    Sparkle.draw s = (r, s')
    /\ Z.of_nat (length pixels) = Sparkle._num_sparkles (self s)
    /\ events s' = events s
         ++ bright_events (Sparkle._color (self s)) pixels ++ [EvShow]
         ++ decay_events (Sparkle._half_color (self s))
                         (Sparkle._dim_color (self s)) pixels ++ [EvShow]
    /\ count_shows (bright_events (Sparkle._color (self s)) pixels ++ [EvShow]
         ++ decay_events (Sparkle._half_color (self s))
                         (Sparkle._dim_color (self s)) pixels ++ [EvShow]) = 2%nat
    /\ (~ flush_fails 1 s -> r = Ok tt).
Proof.
  destruct s as [o buf ev en fl cn ct]. unfold flush_fails.
  cbn [self pixel_object events show_faults]. intros Hlen Hnum Hfirst.
  destruct (draw_run o buf ev en fl cn ct Hlen) as (pixels & en' & Hk & _ & Hrun).
  assert (Hcount : count_shows (bright_events (Sparkle._color o) pixels ++ [EvShow]
            ++ decay_events (Sparkle._half_color o) (Sparkle._dim_color o) pixels
            ++ [EvShow]) = 2%nat).
  { rewrite !count_shows_app, count_shows_bright, count_shows_decay. reflexivity. }
  exists pixels.
  destruct fl as [|[] fl']; [| exfalso; apply Hfirst; reflexivity |];
    eexists _, _; (split; [exact Hrun|]); (split; [lia|]);
    cbn [events tail]; (split; [reflexivity|]); (split; [exact Hcount|]).
  - reflexivity.
  - intros Hsecond. destruct fl' as [|[] ?]; try reflexivity.
    exfalso. apply Hsecond. reflexivity.
Qed.

Lemma draw_flushes_twice_witness :
  exists pixels r s',
    Sparkle.draw (world (Sparkle.mk (PTuple [255; 0; 0]) (PTuple [63; 0; 0])
                                    (PTuple [25; 0; 0]) 3)
                        (replicate 4 (PTuple [0; 0; 0])) [7; 1; 5] [] [])
    = (r, s')
    /\ Z.of_nat (length pixels) = 3
    /\ events s' = []
         ++ bright_events (PTuple [255; 0; 0]) pixels ++ [EvShow]
         ++ decay_events (PTuple [63; 0; 0]) (PTuple [25; 0; 0]) pixels ++ [EvShow]
    /\ count_shows (bright_events (PTuple [255; 0; 0]) pixels ++ [EvShow]
         ++ decay_events (PTuple [63; 0; 0]) (PTuple [25; 0; 0]) pixels
         ++ [EvShow]) = 2%nat
    /\ (~ flush_fails 1
            (world (Sparkle.mk (PTuple [255; 0; 0]) (PTuple [63; 0; 0])
                               (PTuple [25; 0; 0]) 3)
                   (replicate 4 (PTuple [0; 0; 0])) [7; 1; 5] [] [])
        -> r = Ok tt).
Proof.
  apply (draw_flushes_twice
           (world (Sparkle.mk (PTuple [255; 0; 0]) (PTuple [63; 0; 0])
                              (PTuple [25; 0; 0]) 3)
                  (replicate 4 (PTuple [0; 0; 0])) [7; 1; 5] [] [])).
  - simpl. lia.
  - simpl. lia.
  - unfold flush_fails. simpl. discriminate.
Defined.

(** C8: when the first flush of [draw()] fails, the error comes out of
    [draw()] at once: no half or dim shade is written, no second flush is
    asked for, and every chosen pixel still holds the base colour. *)
Theorem draw_first_flush_fails (s : store Sparkle.t) :
  2 <= Z.of_nat (length (pixel_object s)) ->
  flush_fails 0 s ->
  exists pixels s',
    Sparkle.draw s = (Raise IOError, s')
    /\ length pixels = Z.to_nat (Sparkle._num_sparkles (self s))
    /\ events s' = events s
         ++ bright_events (Sparkle._color (self s)) pixels ++ [EvShow]
    /\ count_shows (bright_events (Sparkle._color (self s)) pixels ++ [EvShow]) = 1%nat
    /\ pixel_object s'
       = bright_buffer (Sparkle._color (self s)) pixels (pixel_object s)
    /\ Forall (fun p => pixel_object s' !! Z.to_nat p
                        = Some (Sparkle._color (self s))) pixels.
Proof.
  destruct s as [o buf ev en fl cn ct]. unfold flush_fails.
  cbn [self pixel_object events show_faults]. intros Hlen Hfirst.
  destruct (draw_run o buf ev en fl cn ct Hlen) as (pixels & en' & Hk & Hall & Hrun).
  destruct fl as [|[] fl']; try discriminate.
  exists pixels. eexists. split; [exact Hrun|].
  cbn [events pixel_object]. split; [exact Hk|]. split; [reflexivity|].
  split; [rewrite count_shows_app, count_shows_bright; reflexivity|].
  split; [reflexivity|]. apply bright_buffer_holds. exact Hall.
Qed.

Lemma draw_first_flush_fails_witness :
  exists pixels s',
    Sparkle.draw (world (Sparkle.mk (PTuple [255; 0; 0]) (PTuple [63; 0; 0])
                                    (PTuple [25; 0; 0]) 2)
                        (replicate 4 (PTuple [0; 0; 0])) [7; 1] [true] [])
    = (Raise IOError, s')
    /\ length pixels = 2%nat
    /\ events s' = [] ++ bright_events (PTuple [255; 0; 0]) pixels ++ [EvShow]
    /\ count_shows (bright_events (PTuple [255; 0; 0]) pixels ++ [EvShow]) = 1%nat
    /\ pixel_object s'
       = bright_buffer (PTuple [255; 0; 0]) pixels (replicate 4 (PTuple [0; 0; 0]))
    /\ Forall (fun p => pixel_object s' !! Z.to_nat p = Some (PTuple [255; 0; 0]))
              pixels.
Proof.
  apply (draw_first_flush_fails
           (world (Sparkle.mk (PTuple [255; 0; 0]) (PTuple [63; 0; 0])
                              (PTuple [25; 0; 0]) 2)
                  (replicate 4 (PTuple [0; 0; 0])) [7; 1] [true] [])).
  - simpl. lia.
  - reflexivity.
Defined.

(** C9: on a buffer of [N >= 2] pixels every index [draw()] touches lies
    in [0, N-1], whatever the sparkle count and whatever the flushes do:
    each chosen pixel is in [0, N-2], the writes go to it and to its right
    neighbour, and no [IndexError] is raised. *)
Theorem draw_stays_in_buffer (s : store Sparkle.t) :
  2 <= Z.of_nat (length (pixel_object s)) ->
  exists pixels evs r s',
    Sparkle.draw s = (r, s')
    /\ events s' = events s ++ evs
    /\ Forall (fun p => 0 <= p <= Z.of_nat (length (pixel_object s)) - 2) pixels
    /\ writes evs = bright_events (Sparkle._color (self s)) pixels
                    ++ (if decide (flush_fails 0 s) then []
                        else decay_events (Sparkle._half_color (self s))
                                          (Sparkle._dim_color (self s)) pixels)
    /\ Forall (in_buffer (Z.of_nat (length (pixel_object s)))) evs
    /\ r <> Raise IndexError
    /\ length (pixel_object s') = length (pixel_object s).
Proof.
  destruct s as [o buf ev en fl cn ct]. unfold flush_fails.
  cbn [self pixel_object events show_faults]. intros Hlen.
  destruct (draw_run o buf ev en fl cn ct Hlen) as (pixels & en' & Hk & Hall & Hrun).
  assert (Hwb : forall c, writes (bright_events c pixels) = bright_events c pixels).
  { intros c. clear. induction pixels as [|p pixels IH]; [reflexivity|].
    unfold writes in *. simpl. rewrite filter_cons, decide_True by reflexivity.
    f_equal. exact IH. }
  assert (Hwd : forall h d, writes (decay_events h d pixels) = decay_events h d pixels).
  { intros h d. clear. induction pixels as [|p pixels IH]; [reflexivity|].
    unfold writes in *. simpl. rewrite !filter_cons, !decide_True by reflexivity.
    do 2 f_equal. exact IH. }
  exists pixels.
  destruct fl as [|[] fl']; eexists _, _, _; (split; [exact Hrun|]);
    cbn [events pixel_object]; (split; [reflexivity|]); (split; [exact Hall|]).
  - split.
    { unfold writes. rewrite !filter_app. fold (writes (bright_events (Sparkle._color o) pixels)).
      fold (writes (decay_events (Sparkle._half_color o) (Sparkle._dim_color o) pixels)).
      rewrite Hwb, Hwd. rewrite decide_False by discriminate. simpl.
      rewrite app_nil_r. reflexivity. }
    split; [|split; [discriminate|]].
    + repeat apply Forall_app_2;
        auto using bright_events_in_buffer, decay_events_in_buffer.
      all: repeat constructor.
    + rewrite decay_buffer_length, bright_buffer_length. reflexivity.
  - split.
    { unfold writes. rewrite !filter_app. fold (writes (bright_events (Sparkle._color o) pixels)).
      rewrite Hwb. rewrite decide_True by reflexivity. reflexivity. }
    split; [|split; [discriminate|]].
    + repeat apply Forall_app_2; auto using bright_events_in_buffer.
      repeat constructor.
    + rewrite bright_buffer_length. reflexivity.
  - split.
    { unfold writes. rewrite !filter_app. fold (writes (bright_events (Sparkle._color o) pixels)).
      fold (writes (decay_events (Sparkle._half_color o) (Sparkle._dim_color o) pixels)).
      rewrite Hwb, Hwd. rewrite decide_False by discriminate. simpl.
      rewrite app_nil_r. reflexivity. }
    split; [|split].
    + repeat apply Forall_app_2;
        auto using bright_events_in_buffer, decay_events_in_buffer.
      all: repeat constructor.
    + cbn [tail]. destruct fl' as [|[] ?]; discriminate.
    + rewrite decay_buffer_length, bright_buffer_length. reflexivity.
Qed.

Lemma draw_stays_in_buffer_witness :
  exists pixels evs r s',
    Sparkle.draw (world (Sparkle.mk (PTuple [255; 0; 0]) (PTuple [63; 0; 0])
                                    (PTuple [25; 0; 0]) 4)
                        (replicate 2 (PTuple [0; 0; 0])) [7; 1; 9; 2] [false; true] [])
    = (r, s')
    /\ events s' = [] ++ evs
    /\ Forall (fun p => 0 <= p <= 2 - 2) pixels
    /\ writes evs = bright_events (PTuple [255; 0; 0]) pixels
                    ++ decay_events (PTuple [63; 0; 0]) (PTuple [25; 0; 0]) pixels
    /\ Forall (in_buffer 2) evs
    /\ r <> Raise IndexError
    /\ length (pixel_object s') = 2%nat.
Proof.
  apply (draw_stays_in_buffer
           (world (Sparkle.mk (PTuple [255; 0; 0]) (PTuple [63; 0; 0])
                              (PTuple [25; 0; 0]) 4)
                  (replicate 2 (PTuple [0; 0; 0])) [7; 1; 9; 2] [false; true] [])).
  simpl. lia.
Defined.

(** ** Construction *)

Lemma sparkle_init_run o buf ev en fl cn ct color num_sparkles :
  2 <= Z.of_nat (length buf) ->
  Sparkle.__init__ color num_sparkles (Store o buf ev en fl cn ct)
  = (Ok tt,
     Store (Sparkle.mk (PTuple color) (shade 4 color) (shade 10 color) num_sparkles)
           (recompute_spec PNone PNone (shade 4 color) (shade 10 color) buf)
           (ev ++ scan_events PNone PNone (shade 4 color) (shade 10 color) 0 buf)
           en fl cn ct).
Proof.
  intros Hlen. unfold Sparkle.__init__.
  erewrite bind_ok by reflexivity. cbn [pixel_object].
  destruct (Z.ltb_spec (Z.of_nat (length buf)) 2); [lia|].
  do 3 (erewrite bind_ok by reflexivity).
  unfold Animation_init. erewrite bind_ok by reflexivity.
  cbn [self]. rewrite recompute_color_run. reflexivity.
Qed.

(** C4: with fewer than two pixels both constructors raise the
    [ValueError] "Sparkle needs at least 2 pixels" (the spec's
    InvalidConfiguration) as their first action: no attribute is assigned,
    the buffer is neither read nor written, nothing is flushed, and no
    object comes back on which [draw()] could be called. *)
Theorem short_buffer_is_rejected (buf : list pyval) :
  Z.of_nat (length buf) < 2 ->
  (forall o ev en fl cn ct color num_sparkles,
      Sparkle.__init__ color num_sparkles (Store o buf ev en fl cn ct)
      = (Raise (ValueError "Sparkle needs at least 2 pixels"),
         Store o buf ev en fl cn ct))
  /\ (forall (F : Type) (num : PyNum F) o ev en fl cn ct color
             (period max_intensity min_intensity : F),
      SparklePulse.__init__ color period max_intensity min_intensity
        (Store o buf ev en fl cn ct)
      = (Raise (ValueError "Sparkle needs at least 2 pixels"),
         Store o buf ev en fl cn ct)).
Proof.
  intros Hlen. split; intros.
  - unfold Sparkle.__init__. erewrite bind_ok by reflexivity. cbn [pixel_object].
    destruct (Z.ltb_spec (Z.of_nat (length buf)) 2); [reflexivity | lia].
  - unfold SparklePulse.__init__. erewrite bind_ok by reflexivity. cbn [pixel_object].
    destruct (Z.ltb_spec (Z.of_nat (length buf)) 2); [reflexivity | lia].
Qed.

Lemma short_buffer_is_rejected_witness :
  (forall o ev en fl cn ct color num_sparkles,
      Sparkle.__init__ color num_sparkles (Store o [PTuple [0; 0; 0]] ev en fl cn ct)
      = (Raise (ValueError "Sparkle needs at least 2 pixels"),
         Store o [PTuple [0; 0; 0]] ev en fl cn ct))
  /\ (forall (F : Type) (num : PyNum F) o ev en fl cn ct color
             (period max_intensity min_intensity : F),
      SparklePulse.__init__ color period max_intensity min_intensity
        (Store o [PTuple [0; 0; 0]] ev en fl cn ct)
      = (Raise (ValueError "Sparkle needs at least 2 pixels"),
         Store o [PTuple [0; 0; 0]] ev en fl cn ct)).
Proof.
  apply (short_buffer_is_rejected [PTuple [0; 0; 0]]). simpl. lia.
Defined.

(** C6: scenario 1.  On any buffer of five pixels,
    [Sparkle(pixels, 0.1, (255, 0, 0), num_sparkles=1)] followed by one
    [draw()] whose first flush returns chooses one index [i] in [0, 3];
    pixel [i] is set to (255, 0, 0), shown, then set to (63, 0, 0), and
    pixel [i + 1] is set to (25, 0, 0); nothing else is written. *)
Theorem scenario_one_sparkle (buf : list pyval) (rng : list Z) (faults : list bool)
    (ticks : list Z) :
  length buf = 5%nat ->
  faults !! 0%nat <> Some true ->
  exists s1 i r s2,
    Sparkle.__init__ [255; 0; 0] 1 (world Sparkle.blank buf rng faults ticks)
    = (Ok tt, s1)
    /\ Sparkle.draw s1 = (r, s2)
    /\ 0 <= i <= 3
    /\ events s2 = events s1
         ++ [EvSet i (PTuple [255; 0; 0]); EvShow;
             EvSet i (PTuple [63; 0; 0]); EvSet (i + 1) (PTuple [25; 0; 0]); EvShow]
    /\ pixel_object s2
       = <[Z.to_nat (i + 1) := PTuple [25; 0; 0]]>
           (<[Z.to_nat i := PTuple [63; 0; 0]]> (pixel_object s1)).
Proof.
  intros Hlen Hfirst. unfold world.
  assert (Hinit := sparkle_init_run Sparkle.blank buf [] rng faults 0 ticks
                     [255; 0; 0] 1).
  rewrite Hlen in Hinit. specialize (Hinit ltac:(lia)).
  set (buf1 := recompute_spec PNone PNone (shade 4 [255; 0; 0])
                              (shade 10 [255; 0; 0]) buf) in *.
  assert (Hlen1 : length buf1 = 5%nat).
  { unfold buf1, recompute_spec. rewrite length_map. exact Hlen. }
  destruct (draw_run (Sparkle.mk (PTuple [255; 0; 0]) (shade 4 [255; 0; 0])
                                 (shade 10 [255; 0; 0]) 1)
              buf1 ([] ++ scan_events PNone PNone (shade 4 [255; 0; 0])
                                      (shade 10 [255; 0; 0]) 0 buf)
              rng faults 0 ticks ltac:(lia))
    as (pixels & en' & Hk & Hall & Hrun).
  destruct pixels as [|i [|? ?]]; try discriminate Hk.
  inversion Hall as [|? ? Hi _]; subst. rewrite Hlen1 in Hi.
  cbn [Sparkle._color Sparkle._half_color Sparkle._dim_color] in Hrun.
  eexists. exists i.
  destruct faults as [|[] faults']; [| exfalso; apply Hfirst; reflexivity |];
    eexists _, _; (split; [exact Hinit|]);
    (split; [exact Hrun|]); (split; [lia|]); cbn [events pixel_object];
    (split; [reflexivity|]);
    unfold decay_buffer, bright_buffer; simpl;
    rewrite list_insert_insert_eq; reflexivity.
Qed.

Lemma scenario_one_sparkle_witness :
  exists s1 i r s2,
    Sparkle.__init__ [255; 0; 0] 1
      (world Sparkle.blank (replicate 5 (PTuple [0; 0; 0])) [6] [] [])
    = (Ok tt, s1)
    /\ Sparkle.draw s1 = (r, s2)
    /\ 0 <= i <= 3
    /\ events s2 = events s1
         ++ [EvSet i (PTuple [255; 0; 0]); EvShow;
             EvSet i (PTuple [63; 0; 0]); EvSet (i + 1) (PTuple [25; 0; 0]); EvShow]
    /\ pixel_object s2
       = <[Z.to_nat (i + 1) := PTuple [25; 0; 0]]>
           (<[Z.to_nat i := PTuple [63; 0; 0]]> (pixel_object s1)).
Proof.
  apply (scenario_one_sparkle (replicate 5 (PTuple [0; 0; 0])) [6] [] []).
  - reflexivity.
  - discriminate.
Defined.


(** ** SparklePulse *)

Lemma randint_run {O} (o : O) buf ev en fl cn ct a b :
  a <= b ->
  exists x en',
    randint a b (Store o buf ev en fl cn ct) = (Ok x, Store o buf ev en' fl cn ct)
    /\ a <= x <= b.
Proof.
  intros Hab. unfold randint. cbn [entropy].
  destruct (Z.ltb_spec b a); [lia|].
  destruct en as [|x en1].
  - exists a, []. split; [reflexivity | lia].
  - exists (a + x mod (b - a + 1)), en1. split; [reflexivity|].
    pose proof (Z.mod_pos_bound x (b - a + 1)). lia.
Qed.

Lemma monotonic_ns_run {O} (o : O) buf ev en fl cn ct :
  monotonic_ns (Store o buf ev en fl cn ct)
  = (Ok (next_reading (Store o buf ev en fl cn ct)),
     Store o buf ev en fl (next_reading (Store o buf ev en fl cn ct)) (tail ct)).
Proof. unfold monotonic_ns, next_reading. cbn. destruct ct; reflexivity. Qed.

Lemma map_result_Forall2 {A B} (f : A -> result B) l : forall ys,
  map_result f l = Ok ys -> Forall2 (fun x y => f x = Ok y) l ys.
Proof.
  induction l as [|x l IH]; intros ys Hys; simpl in Hys.
  - injection Hys as <-. constructor.
  - destruct (f x) as [y|e] eqn:Hx; [|discriminate]. simpl in Hys.
    destruct (map_result f l) as [ys'|e] eqn:Hl; [|discriminate]. simpl in Hys.
    injection Hys as <-. constructor; [exact Hx | apply IH; reflexivity].
Qed.

Section Pulse.
Context {F : Type} `{PyNum F}.

Lemma pulse_recompute_color_run (o : SparklePulse.t F) buf ev en fl cn ct color :
  SparklePulse._recompute_color color (Store o buf ev en fl cn ct)
  = (Ok tt,
     Store (SparklePulse.set_dim_color (shade 10 color)
              (SparklePulse.set_half_color (shade 4 color) o))
           (recompute_spec (SparklePulse._half_color o) (SparklePulse._dim_color o)
                           (shade 4 color) (shade 10 color) buf)
           (ev ++ scan_events (SparklePulse._half_color o) (SparklePulse._dim_color o)
                              (shade 4 color) (shade 10 color) 0 buf)
           en fl cn ct).
Proof.
  unfold SparklePulse._recompute_color.
  step by apply repaint_run. reflexivity.
Qed.

(** Construction on a long enough buffer, when the two divisions go
    through and the first pixel has a length. *)
Lemma pulse_init_run (o : SparklePulse.t F) buf ev en fl cn ct color
    period max_intensity min_intensity half_period position_factor first bpp :
  2 <= Z.of_nat (length buf) ->
  fdiv period (of_int 2) = Ok half_period ->
  fdiv (of_int 1) half_period = Ok position_factor ->
  buf !! 0%nat = Some first ->
  py_len first = Ok bpp ->
  SparklePulse.__init__ color period max_intensity min_intensity
    (Store o buf ev en fl cn ct)
  = (Ok tt,
     Store (SparklePulse.mk max_intensity min_intensity period
              (fsub max_intensity min_intensity) half_period position_factor bpp
              (next_reading (Store o buf ev en fl cn ct)) (of_int 0)
              (shade 4 color) (shade 10 color) (PTuple color))
           (recompute_spec PNone PNone (shade 4 color) (shade 10 color) buf)
           (ev ++ EvGet 0 :: scan_events PNone PNone (shade 4 color) (shade 10 color)
                                         0 buf)
           en fl (next_reading (Store o buf ev en fl cn ct)) (tail ct)).
Proof.
  intros Hlen Hhalf Hfactor Hfirst Hbpp. unfold SparklePulse.__init__.
  step. cbn [pixel_object].
  destruct (Z.ltb_spec (Z.of_nat (length buf)) 2); [lia|].
  do 4 (step).
  rewrite Hhalf. step. step.
  rewrite Hfactor. step. step.
  step by (apply getitem_in_range; [lia | exact Hfirst]).
  rewrite Hbpp. step. step.
  step by apply monotonic_ns_run.
  do 4 (step).
  unfold Animation_init. step.
  rewrite pulse_recompute_color_run.
  cbv [modify_self self pixel_object events entropy show_faults clock_now clock_ticks
       SparklePulse.set_max_intensity SparklePulse.set_min_intensity
       SparklePulse.set_period SparklePulse.set_intensity_delta
       SparklePulse.set_half_period SparklePulse.set_position_factor
       SparklePulse.set_bpp SparklePulse.set_last_update
       SparklePulse.set_cycle_position SparklePulse.set_half_color
       SparklePulse.set_dim_color SparklePulse.set_color
       SparklePulse.max_intensity SparklePulse.min_intensity SparklePulse._period
       SparklePulse._intensity_delta SparklePulse._half_period
       SparklePulse._position_factor SparklePulse._bpp SparklePulse._last_update
       SparklePulse._cycle_position SparklePulse._half_color
       SparklePulse._dim_color SparklePulse._color].
  rewrite <- app_assoc. reflexivity.
Qed.

Lemma pulse_init_configured (o : SparklePulse.t F) buf ev en fl cn ct color
    period max_intensity min_intensity half_period position_factor first bpp :
  2 <= Z.of_nat (length buf) ->
  fdiv period (of_int 2) = Ok half_period ->
  fdiv (of_int 1) half_period = Ok position_factor ->
  buf !! 0%nat = Some first ->
  py_len first = Ok bpp ->
  exists s',
    SparklePulse.__init__ color period max_intensity min_intensity
      (Store o buf ev en fl cn ct) = (Ok tt, s')
    /\ configured (self s')
    /\ SparklePulse._period (self s') = period
    /\ SparklePulse.max_intensity (self s') = max_intensity
    /\ SparklePulse.min_intensity (self s') = min_intensity
    /\ SparklePulse._color (self s') = PTuple color
    /\ SparklePulse._bpp (self s') = bpp
    /\ length (pixel_object s') = length buf.
Proof.
  intros Hlen Hhalf Hfactor Hfirst Hbpp.
  eexists. split; [eapply pulse_init_run; eassumption|].
  unfold configured. cbn. unfold recompute_spec. rewrite length_map. auto 10.
Qed.

(** A tick whose arithmetic goes through: one pixel written, one flush. *)
Lemma pulse_draw_run (o : SparklePulse.t F) buf ev en fl cn ct pos color :
  2 <= Z.of_nat (length buf) ->
  tick o (next_reading (Store o buf ev en fl cn ct)) = Ok (pos, color) ->
  exists pixel en',
    0 <= pixel <= Z.of_nat (length buf) - 2
    /\ SparklePulse.draw (Store o buf ev en fl cn ct)
       = (match fl with true :: _ => Raise IOError | _ => Ok tt end,
          Store (SparklePulse.set_cycle_position pos
                   (SparklePulse.set_last_update
                      (next_reading (Store o buf ev en fl cn ct)) o))
                (<[Z.to_nat pixel := PList color]> buf)
                (ev ++ [EvSet pixel (PList color); EvShow])
                en' (tail fl) (next_reading (Store o buf ev en fl cn ct)) (tail ct)).
Proof.
  intros Hlen Htick.
  destruct (randint_run o buf ev en fl cn ct 0 (Z.of_nat (length buf) - 2)
              ltac:(lia)) as (pixel & en' & Hpick & Hpixel).
  exists pixel, en'. split; [exact Hpixel|].
  change (next_reading (Store o buf ev en fl cn ct))
    with (next_reading (Store o buf ev en' fl cn ct)) in *.
  set (now := next_reading (Store o buf ev en' fl cn ct)) in *.
  unfold tick in Htick.
  destruct (int_truediv (now - SparklePulse._last_update o) NANOS_PER_SECOND)
    as [dt|e] eqn:Hdt; [|discriminate]. cbn [result_bind] in Htick.
  destruct (fmod (fadd (SparklePulse._cycle_position o) dt) (SparklePulse._period o))
    as [pos'|e] eqn:Hpos; [|discriminate]. cbn [result_bind] in Htick.
  destruct (SparklePulse.scaled o (SparklePulse.intensity o pos'))
    as [color'|e] eqn:Hcolor; [|discriminate]. cbn [result_bind] in Htick.
  injection Htick as -> ->.
  unfold SparklePulse.draw.
  step. step by exact Hpick. step by apply monotonic_ns_run. fold now.
  step. rewrite Hdt. step. step. step.
  cbn [SparklePulse.set_last_update SparklePulse._cycle_position
       SparklePulse._period].
  rewrite Hpos. step. step. step.
  change (SparklePulse.scaled _ (SparklePulse.intensity _ pos))
    with (SparklePulse.scaled o (SparklePulse.intensity o pos)).
  rewrite Hcolor. step.
  step by (apply setitem_in_range; lia).
  rewrite show_run. rewrite <- app_assoc. reflexivity.
Qed.

(** A tick whose arithmetic raises: the error comes out before the
    buffer is touched or anything is flushed. *)
Lemma pulse_draw_raise (o : SparklePulse.t F) buf ev en fl cn ct e :
  2 <= Z.of_nat (length buf) ->
  tick o (next_reading (Store o buf ev en fl cn ct)) = Raise e ->
  exists s',
    SparklePulse.draw (Store o buf ev en fl cn ct) = (Raise e, s')
    /\ pixel_object s' = buf /\ events s' = ev.
Proof.
  intros Hlen Htick.
  destruct (randint_run o buf ev en fl cn ct 0 (Z.of_nat (length buf) - 2)
              ltac:(lia)) as (pixel & en' & Hpick & Hpixel).
  change (next_reading (Store o buf ev en fl cn ct))
    with (next_reading (Store o buf ev en' fl cn ct)) in *.
  set (now := next_reading (Store o buf ev en' fl cn ct)) in *.
  unfold tick in Htick.
  destruct (int_truediv (now - SparklePulse._last_update o) NANOS_PER_SECOND)
    as [dt|e1] eqn:Hdt; cbn [result_bind] in Htick.
  2:{ injection Htick as ->. eexists. split.
      { unfold SparklePulse.draw.
        step. step by exact Hpick. step by apply monotonic_ns_run. fold now.
        step. rewrite Hdt. stop by reflexivity. reflexivity. }
      split; reflexivity. }
  destruct (fmod (fadd (SparklePulse._cycle_position o) dt) (SparklePulse._period o))
    as [pos|e1] eqn:Hpos; cbn [result_bind] in Htick.
  2:{ injection Htick as ->. eexists. split.
      { unfold SparklePulse.draw.
        step. step by exact Hpick. step by apply monotonic_ns_run. fold now.
        step. rewrite Hdt. step. step. step.
        cbn [SparklePulse.set_last_update SparklePulse._cycle_position
             SparklePulse._period].
        rewrite Hpos. stop by reflexivity. reflexivity. }
      split; reflexivity. }
  destruct (SparklePulse.scaled o (SparklePulse.intensity o pos))
    as [color|e1] eqn:Hcolor; cbn [result_bind] in Htick; [discriminate|].
  injection Htick as ->. eexists. split.
  { unfold SparklePulse.draw.
    step. step by exact Hpick. step by apply monotonic_ns_run. fold now.
    step. rewrite Hdt. step. step. step.
    cbn [SparklePulse.set_last_update SparklePulse._cycle_position
         SparklePulse._period].
    rewrite Hpos. step. step. step.
    change (SparklePulse.scaled _ (SparklePulse.intensity _ pos))
      with (SparklePulse.scaled o (SparklePulse.intensity o pos)).
    rewrite Hcolor. stop by reflexivity. reflexivity. }
  split; reflexivity.
Qed.

End Pulse.

(** X15: on a buffer of [N >= 2] pixels a tick of [SparklePulse.draw]
    goes one of two ways.  If its arithmetic returns a colour, that list
    (channel [n] of the base colour times the intensity, truncated, for
    each [n] below [_bpp]) is written to one index in [0, N-2] and nowhere
    else, and exactly one flush is asked for.  If its arithmetic raises,
    [draw()] raises the same error with the buffer and the event log as
    they were. *)
Theorem pulse_draw_one_pixel {F : Type} `{PyNum F} (s : store (SparklePulse.t F)) :
  2 <= Z.of_nat (length (pixel_object s)) ->
  exists pixel r s',
    SparklePulse.draw s = (r, s')
    /\ 0 <= pixel <= Z.of_nat (length (pixel_object s)) - 2
    /\ match tick (self s) (next_reading s) with
       | Ok (pos, color) =>
           Forall2 (fun n c' => exists c x,
                       py_index (SparklePulse._color (self s)) n = Ok c
                       /\ int_mul c (SparklePulse.intensity (self s) pos) = Ok x
                       /\ to_int x = Ok c')
                   (range (SparklePulse._bpp (self s))) color
           /\ pixel_object s' = <[Z.to_nat pixel := PList color]> (pixel_object s)
           /\ pixel_object s' !! Z.to_nat pixel = Some (PList color)
           /\ (forall j, j <> Z.to_nat pixel ->
                 pixel_object s' !! j = pixel_object s !! j)
           /\ events s' = events s ++ [EvSet pixel (PList color); EvShow]
           /\ (if decide (flush_fails 0 s) then r = Raise IOError else r = Ok tt)
       | Raise e =>
           r = Raise e
           /\ pixel_object s' = pixel_object s
           /\ events s' = events s
       end.
Proof.
  destruct s as [o buf ev en fl cn ct]. unfold flush_fails.
  cbn [self pixel_object events show_faults]. intros Hlen.
  destruct (tick o (next_reading (Store o buf ev en fl cn ct)))
    as [[pos color]|e] eqn:Htick.
  - destruct (pulse_draw_run o buf ev en fl cn ct pos color Hlen Htick)
      as (pixel & en' & Hpixel & Hrun).
    exists pixel. eexists _, _. split; [exact Hrun|]. split; [exact Hpixel|].
    cbn [pixel_object events].
    split.
    { unfold tick in Htick.
      destruct (int_truediv _ _) as [dt|]; [|discriminate].
      cbn [result_bind] in Htick.
      destruct (fmod _ _) as [pos'|]; [|discriminate].
      cbn [result_bind] in Htick.
      destruct (SparklePulse.scaled o (SparklePulse.intensity o pos'))
        as [color'|] eqn:Hcolor; [|discriminate].
      cbn [result_bind] in Htick. injection Htick as -> ->.
      apply map_result_Forall2 in Hcolor.
      eapply Forall2_impl; [exact Hcolor|].
      cbv beta. intros n c' Hn.
      destruct (py_index (SparklePulse._color o) n) as [c|] eqn:Hc; [|discriminate].
      cbn [result_bind] in Hn.
      destruct (int_mul c (SparklePulse.intensity o pos)) as [x|] eqn:Hx;
        [|discriminate].
      cbn [result_bind] in Hn. exists c, x. auto. }
    split; [reflexivity|].
    split; [apply list_lookup_insert_eq; lia|].
    split; [intros j Hj; apply list_lookup_insert_ne; congruence|].
    split; [reflexivity|].
    destruct fl as [|[] fl'].
    + rewrite decide_False by discriminate. reflexivity.
    + rewrite decide_True by reflexivity. reflexivity.
    + rewrite decide_False by discriminate. reflexivity.
  - destruct (pulse_draw_raise o buf ev en fl cn ct e Hlen Htick)
      as (s' & Hrun & Hbuf & Hev).
    exists 0. eexists _, _. split; [exact Hrun|]. split; [lia|]. auto.
Qed.

(** [int / int] rounds once: for a clock difference above [2^53]
    nanoseconds the quotient is the double nearest to the exact ratio;
    small operands divide as floats do. *)
Example long_true_divide_rounds_once :
  Binary64.long_true_divide 9007199254740993 1000000000
  = Ok 0x1.12e0be826d695p+23%float
  /\ Binary64.long_true_divide (-1180591620717411315769) 1000000000
     = Ok (- 0x1.12e0be826d695p+40)%float
  /\ Binary64.long_true_divide 2500000000 1000000000 = Ok 2.5%float
  /\ Binary64.long_true_divide 1 3 = Ok 0x1.5555555555555p-2%float
  /\ Binary64.long_true_divide 0 (-5) = Ok neg_zero
  /\ Binary64.long_true_divide (2 ^ 1030) 3 = Raise OverflowError
  /\ Binary64.long_true_divide 7 0 = Raise ZeroDivisionError.
Proof. repeat split; vm_compute; reflexivity. Qed.

(** C3, failing input: a pulse with the default period 5, intensities
    from 0 to 0.7 and colour (90, 170, 180), drawn 2.5 s after
    construction.  The docstring calls [max_intensity] "the maximum
    intensity to pulse"; [draw] computes the intensity
    0.7000000000000001, above it, and the pixel gets (63, 119, 126) where
    scaling by [max_intensity] itself gives (62, 118, 125). *)
Lemma pulse_intensity_exceeds_max_binary64 :
  exists s1 s2 pos,
    SparklePulse.__init__ [90; 170; 180] 5%float seven_tenths 0%float half_period_strip
    = (Ok tt, s1)
    /\ PrimFloat.ltb 0%float (SparklePulse._period (self s1)) = true
    /\ PrimFloat.leb (SparklePulse.min_intensity (self s1))
                     (SparklePulse.max_intensity (self s1)) = true
    /\ 0 <= next_reading s1 - SparklePulse._last_update (self s1)
    /\ SparklePulse.draw s1 = (Ok tt, s2)
    /\ tick (self s1) (next_reading s1) = Ok (pos, [63; 119; 126])
    /\ events s2 = events s1 ++ [EvSet 0 (PList [63; 119; 126]); EvShow]
    /\ PrimFloat.ltb (SparklePulse.max_intensity (self s1))
                     (SparklePulse.intensity (self s1) pos) = true
    /\ SparklePulse.scaled (self s1) (SparklePulse.max_intensity (self s1))
       = Ok [62; 118; 125].
Proof.
  eexists _, _, _. split; [vm_compute; reflexivity|].
  split; [reflexivity|]. split; [reflexivity|]. split; [vm_compute; discriminate|].
  split; [vm_compute; reflexivity|]. split; [vm_compute; reflexivity|].
  split; [reflexivity|]. split; vm_compute; reflexivity.
Qed.

Lemma pulse_draw_one_pixel_witness :
  exists pixel r s',
    SparklePulse.draw scenario_two = (r, s')
    /\ 0 <= pixel <= Z.of_nat (length (pixel_object scenario_two)) - 2
    /\ match tick (self scenario_two) (next_reading scenario_two) with
       | Ok (pos, color) =>
           Forall2 (fun n c' => exists c x,
                       py_index (SparklePulse._color (self scenario_two)) n = Ok c
                       /\ int_mul c (SparklePulse.intensity (self scenario_two) pos)
                          = Ok x
                       /\ to_int x = Ok c')
                   (range (SparklePulse._bpp (self scenario_two))) color
           /\ pixel_object s'
              = <[Z.to_nat pixel := PList color]> (pixel_object scenario_two)
           /\ pixel_object s' !! Z.to_nat pixel = Some (PList color)
           /\ (forall j, j <> Z.to_nat pixel ->
                 pixel_object s' !! j = pixel_object scenario_two !! j)
           /\ events s' = events scenario_two ++ [EvSet pixel (PList color); EvShow]
           /\ (if decide (flush_fails 0 scenario_two)
               then r = Raise IOError else r = Ok tt)
       | Raise e =>
           r = Raise e
           /\ pixel_object s' = pixel_object scenario_two
           /\ events s' = events scenario_two
       end.
Proof.
  apply (pulse_draw_one_pixel scenario_two). vm_compute. discriminate.
Defined.

(** Scenario 2 on floats: two seconds into a period of four the
    intensity is exactly 1.0 and pixel 2 gets (100, 100, 100). *)
Example scenario_two_run :
  exists s',
    SparklePulse.draw scenario_two = (Ok tt, s')
    /\ tick (self scenario_two) (next_reading scenario_two)
       = Ok (2%float, [100; 100; 100])
    /\ SparklePulse.intensity (self scenario_two) 2%float = 1%float
    /\ SparklePulse.intensity (self scenario_two) 0%float = 0%float
    /\ SparklePulse.scaled (self scenario_two) 0%float = Ok [0; 0; 0]
    /\ events s' = events scenario_two ++ [EvSet 2 (PList [100; 100; 100]); EvShow].
Proof.
  eexists. split; [vm_compute; reflexivity|].
  repeat split; vm_compute; reflexivity.
Qed.

(** C5, failing input: the colour (255, 0, 0), an "(r, g, b) tuple" as
    the docstring asks for, on a strip of RGBW pixels.  [_bpp] is 4, the
    colour has no channel 3, and [draw()] raises [IndexError] without
    writing a pixel or asking for a flush. *)
Lemma pulse_draw_rgb_on_rgbw_raises :
  exists s1 s2,
    SparklePulse.__init__ [255; 0; 0] 5%float 1%float 0%float rgbw_strip = (Ok tt, s1)
    /\ 2 <= Z.of_nat (length (pixel_object s1))
    /\ SparklePulse._bpp (self s1) = 4
    /\ SparklePulse.draw s1 = (Raise IndexError, s2)
    /\ pixel_object s2 = pixel_object s1
    /\ events s2 = events s1.
Proof.
  eexists _, _. split; [vm_compute; reflexivity|].
  split; [vm_compute; discriminate|]. split; [reflexivity|].
  split; [vm_compute; reflexivity|]. split; reflexivity.
Qed.

(** When the two old shades coincide, as for the colour (3, 3, 3) whose
    half and dim shades are both (0, 0, 0), the first test wins: a pixel
    holding that shade gets the new half shade. *)
Example recompute_color_same_old_shades :
  exists s',
    Sparkle._recompute_color [255; 0; 0]
      (world (Sparkle.mk (PTuple [3; 3; 3]) (PTuple [0; 0; 0]) (PTuple [0; 0; 0]) 1)
             [PTuple [0; 0; 0]; PTuple [9; 9; 9]] [] [] [])
    = (Ok tt, s')
    /\ pixel_object s' = [PTuple [63; 0; 0]; PTuple [9; 9; 9]]
    /\ events s' = [EvGet 0; EvSet 0 (PTuple [63; 0; 0]); EvGet 1; EvGet 1].
Proof. eexists. split; [vm_compute; reflexivity|]. split; reflexivity. Qed.

(** * Further properties *)

(** ** Sparkle: the buffer after a tick *)

Lemma bright_buffer_other color pixels j : forall buf,
  Forall (fun p => j <> Z.to_nat p) pixels ->
  bright_buffer color pixels buf !! j = buf !! j.
Proof.
  unfold bright_buffer. induction pixels as [|p pixels IH]; intros buf Hall;
    [reflexivity|].
  inversion Hall as [|? ? Hp Hrest]; subst. simpl.
  rewrite IH by exact Hrest. apply list_lookup_insert_ne. congruence.
Qed.

Lemma untouched_cons p pixels j :
  ~ touched (p :: pixels) j ->
  j <> Z.to_nat p /\ j <> Z.to_nat (p + 1) /\ ~ touched pixels j.
Proof.
  unfold touched. intros Hno. repeat split; intros Hj; apply Hno.
  - apply Exists_cons_hd. left. exact Hj.
  - apply Exists_cons_hd. right. exact Hj.
  - apply Exists_cons_tl. exact Hj.
Qed.

Lemma untouched_bright pixels j :
  ~ touched pixels j -> Forall (fun p => j <> Z.to_nat p) pixels.
Proof.
  induction pixels as [|p pixels IH]; intros Hno; [constructor|].
  apply untouched_cons in Hno as (Hp & _ & Hrest). constructor; auto.
Qed.

Lemma decay_buffer_other half dim pixels j : forall buf,
  ~ touched pixels j ->
  decay_buffer half dim pixels buf !! j = buf !! j.
Proof.
  unfold decay_buffer. induction pixels as [|p pixels IH]; intros buf Hno;
    [reflexivity|].
  apply untouched_cons in Hno as (Hp & Hp1 & Hrest). simpl.
  rewrite IH by exact Hrest.
  rewrite list_lookup_insert_ne by congruence.
  apply list_lookup_insert_ne. congruence.
Qed.

(** The second loop writes nothing but the two shades, so a slot that
    holds one of them holds one of them afterwards. *)
Lemma decay_buffer_keeps half dim pixels j : forall buf,
  decayed half dim buf j -> decayed half dim (decay_buffer half dim pixels buf) j.
Proof.
  unfold decay_buffer, decayed.
  induction pixels as [|p pixels IH]; intros buf Hj; [exact Hj|].
  simpl. apply IH.
  assert (Hlt : (j < length buf)%nat).
  { destruct Hj as [Hj|Hj]; apply lookup_lt_Some in Hj; exact Hj. }
  destruct (decide (Z.to_nat (p + 1) = j)) as [<-|Hne1].
  { right. apply list_lookup_insert_eq. rewrite length_insert. exact Hlt. }
  rewrite list_lookup_insert_ne by exact Hne1.
  destruct (decide (Z.to_nat p = j)) as [<-|Hne].
  { left. apply list_lookup_insert_eq. exact Hlt. }
  rewrite list_lookup_insert_ne by exact Hne. exact Hj.
Qed.

Lemma decay_buffer_touched half dim pixels j : forall buf,
  Forall (fun p => 0 <= p <= Z.of_nat (length buf) - 2) pixels ->
  touched pixels j ->
  decayed half dim (decay_buffer half dim pixels buf) j.
Proof.
  induction pixels as [|p pixels IH]; intros buf Hall Hj;
    [inversion Hj|].
  inversion Hall as [|? ? Hp Hrest]; subst.
  change (decay_buffer half dim (p :: pixels) buf)
    with (decay_buffer half dim pixels
            (<[Z.to_nat (p + 1) := dim]> (<[Z.to_nat p := half]> buf))).
  apply Exists_cons in Hj as [[Hj|Hj]|Hj].
  - apply decay_buffer_keeps. left. subst j.
    rewrite list_lookup_insert_ne by lia.
    apply list_lookup_insert_eq. lia.
  - apply decay_buffer_keeps. right. subst j.
    apply list_lookup_insert_eq. rewrite length_insert. lia.
  - apply IH; [|exact Hj]. rewrite !length_insert. exact Hrest.
Qed.

(** X1: on a buffer of at least two pixels none of which is [None],
    [Sparkle.__init__] succeeds and leaves an object with the base colour,
    half = colour // 4, dim = colour // 10 and the sparkle count; the
    repaint it triggers only reads the buffer: no pixel is written and the
    buffer is as before. *)
Theorem sparkle_init_builds (s : store Sparkle.t) (color : list Z) (num_sparkles : Z) :
  2 <= Z.of_nat (length (pixel_object s)) ->
  Forall (fun p => p <> PNone) (pixel_object s) ->
  exists s' scan,
    Sparkle.__init__ color num_sparkles s = (Ok tt, s')
    /\ self s' = Sparkle.mk (PTuple color) (PTuple (map (fun c => c / 4) color))
                            (PTuple (map (fun c => c / 10) color)) num_sparkles
    /\ pixel_object s' = pixel_object s
    /\ events s' = events s ++ scan
    /\ writes scan = [].
Proof.
  destruct s as [o buf ev en fl cn ct]. cbn [pixel_object]. intros Hlen Hbuf.
  eexists _, _. split; [apply sparkle_init_run; exact Hlen|].
  cbn [self pixel_object events].
  split; [reflexivity|].
  split; [apply recompute_spec_unset; exact Hbuf|].
  split; [reflexivity|].
  apply scan_events_unset; exact Hbuf.
Qed.

Lemma sparkle_init_builds_witness :
  exists s' scan,
    Sparkle.__init__ [255; 128; 7] 3
      (world Sparkle.blank (replicate 4 (PTuple [1; 2; 3])) [5] [true] [9]) = (Ok tt, s')
    /\ self s' = Sparkle.mk (PTuple [255; 128; 7])
                            (PTuple (map (fun c => c / 4) [255; 128; 7]))
                            (PTuple (map (fun c => c / 10) [255; 128; 7])) 3
    /\ pixel_object s' = replicate 4 (PTuple [1; 2; 3])
    /\ events s' = [] ++ scan
    /\ writes scan = [].
Proof.
  apply (sparkle_init_builds
           (world Sparkle.blank (replicate 4 (PTuple [1; 2; 3])) [5] [true] [9])
           [255; 128; 7] 3).
  - simpl. lia.
  - repeat constructor; discriminate.
Defined.

(** X2: a tick of [Sparkle.draw] changes no slot other than the chosen
    pixels and their right neighbours, keeps the length of the buffer and
    leaves the object's attributes alone, whatever the two flushes do. *)
Theorem sparkle_draw_frame (s : store Sparkle.t) :
  2 <= Z.of_nat (length (pixel_object s)) ->
  exists pixels r s',
    Sparkle.draw s = (r, s')
    /\ length pixels = Z.to_nat (Sparkle._num_sparkles (self s))
    /\ Forall (fun p => 0 <= p <= Z.of_nat (length (pixel_object s)) - 2) pixels
    /\ (forall j, ~ touched pixels j -> pixel_object s' !! j = pixel_object s !! j)
    /\ length (pixel_object s') = length (pixel_object s)
    /\ self s' = self s.
Proof.
  destruct s as [o buf ev en fl cn ct]. cbn [self pixel_object]. intros Hlen.
  destruct (draw_run o buf ev en fl cn ct Hlen) as (pixels & en' & Hk & Hall & Hrun).
  exists pixels.
  destruct fl as [|[] fl']; eexists _, _; (split; [exact Hrun|]);
    cbn [self pixel_object]; (split; [exact Hk|]); (split; [exact Hall|]).
  - split; [|split; [|reflexivity]].
    + intros j Hj. rewrite decay_buffer_other by exact Hj.
      apply bright_buffer_other, untouched_bright, Hj.
    + rewrite decay_buffer_length. apply bright_buffer_length.
  - split; [|split; [|reflexivity]].
    + intros j Hj. apply bright_buffer_other, untouched_bright, Hj.
    + apply bright_buffer_length.
  - split; [|split; [|reflexivity]].
    + intros j Hj. rewrite decay_buffer_other by exact Hj.
      apply bright_buffer_other, untouched_bright, Hj.
    + rewrite decay_buffer_length. apply bright_buffer_length.
Qed.

Lemma sparkle_draw_frame_witness :
  exists pixels r s',
    Sparkle.draw (world (Sparkle.mk (PTuple [255; 0; 0]) (PTuple [63; 0; 0])
                                    (PTuple [25; 0; 0]) 2)
                        (replicate 6 (PTuple [0; 0; 0])) [3; 8] [false; true] [])
    = (r, s')
    /\ length pixels = 2%nat
    /\ Forall (fun p => 0 <= p <= 6 - 2) pixels
    /\ (forall j, ~ touched pixels j ->
          pixel_object s' !! j = replicate 6 (PTuple [0; 0; 0]) !! j)
    /\ length (pixel_object s') = 6%nat
    /\ self s' = Sparkle.mk (PTuple [255; 0; 0]) (PTuple [63; 0; 0])
                            (PTuple [25; 0; 0]) 2.
Proof.
  apply (sparkle_draw_frame
           (world (Sparkle.mk (PTuple [255; 0; 0]) (PTuple [63; 0; 0])
                              (PTuple [25; 0; 0]) 2)
                  (replicate 6 (PTuple [0; 0; 0])) [3; 8] [false; true] [])).
  simpl. lia.
Defined.

(** X3: when the first flush returns, [Sparkle.draw] ends with every slot
    it wrote to holding the half or the dim shade, also where sparkles
    overlap or are drawn twice.  The chosen pixels are the ones of the
    logged writes: each got the base colour before the first flush, then
    the half shade, and its right neighbour the dim shade. *)
Theorem sparkle_draw_decays (s : store Sparkle.t) :
  2 <= Z.of_nat (length (pixel_object s)) ->
  ~ flush_fails 0 s ->
  exists pixels r s',
    Sparkle.draw s = (r, s')
    /\ length pixels = Z.to_nat (Sparkle._num_sparkles (self s))
    /\ Forall (fun p => 0 <= p <= Z.of_nat (length (pixel_object s)) - 2) pixels
    /\ events s' = events s
         ++ bright_events (Sparkle._color (self s)) pixels ++ [EvShow]
         ++ decay_events (Sparkle._half_color (self s))
                         (Sparkle._dim_color (self s)) pixels ++ [EvShow]
    /\ (forall j, touched pixels j ->
          decayed (Sparkle._half_color (self s)) (Sparkle._dim_color (self s))
                  (pixel_object s') j)
    /\ (forall j, ~ touched pixels j -> pixel_object s' !! j = pixel_object s !! j).
Proof.
  destruct s as [o buf ev en fl cn ct]. unfold flush_fails.
  cbn [self pixel_object events show_faults]. intros Hlen Hfirst.
  destruct (draw_run o buf ev en fl cn ct Hlen) as (pixels & en' & Hk & Hall & Hrun).
  exists pixels.
  destruct fl as [|[] fl']; [| exfalso; apply Hfirst; reflexivity |];
    eexists _, _; (split; [exact Hrun|]); (split; [exact Hk|]);
    (split; [exact Hall|]); cbn [pixel_object events]; (split; [reflexivity|]);
    (split; intros j Hj;
     [ apply decay_buffer_touched; [rewrite bright_buffer_length; exact Hall | exact Hj]
     | rewrite decay_buffer_other by exact Hj;
       apply bright_buffer_other, untouched_bright, Hj ]).
Qed.

Lemma sparkle_draw_decays_witness :
  exists pixels r s',
    Sparkle.draw (world (Sparkle.mk (PTuple [255; 0; 0]) (PTuple [63; 0; 0])
                                    (PTuple [25; 0; 0]) 3)
                        (replicate 4 (PTuple [0; 0; 0])) [1; 2; 1] [] [])
    = (r, s')
    /\ length pixels = 3%nat
    /\ Forall (fun p => 0 <= p <= 4 - 2) pixels
    /\ events s' = []
         ++ bright_events (PTuple [255; 0; 0]) pixels ++ [EvShow]
         ++ decay_events (PTuple [63; 0; 0]) (PTuple [25; 0; 0]) pixels ++ [EvShow]
    /\ (forall j, touched pixels j ->
          decayed (PTuple [63; 0; 0]) (PTuple [25; 0; 0]) (pixel_object s') j)
    /\ (forall j, ~ touched pixels j ->
          pixel_object s' !! j = replicate 4 (PTuple [0; 0; 0]) !! j).
Proof.
  apply (sparkle_draw_decays
           (world (Sparkle.mk (PTuple [255; 0; 0]) (PTuple [63; 0; 0])
                              (PTuple [25; 0; 0]) 3)
                  (replicate 4 (PTuple [0; 0; 0])) [1; 2; 1] [] [])).
  - simpl. lia.
  - unfold flush_fails. simpl. discriminate.
Defined.

(** X4: with a sparkle count of zero or less [range] is empty:
    [Sparkle.draw] chooses no pixel, leaves the buffer and the random
    source untouched, and still asks for its flushes, on a buffer of any
    length. *)
Theorem sparkle_draw_no_sparkles (s : store Sparkle.t) :
  Sparkle._num_sparkles (self s) <= 0 ->
  exists r s',
    Sparkle.draw s = (r, s')
    /\ pixel_object s' = pixel_object s
    /\ entropy s' = entropy s
    /\ writes (drop (length (events s)) (events s')) = []
    /\ events s' = events s ++ (if decide (flush_fails 0 s) then [EvShow]
                                else [EvShow; EvShow])
    /\ r = (if decide (flush_fails 0 s \/ flush_fails 1 s) then Raise IOError
            else Ok tt).
Proof.
  destruct s as [o buf ev en fl cn ct]. unfold flush_fails.
  cbn [self pixel_object events entropy show_faults]. intros Hnum.
  assert (Hrun : Sparkle.draw (Store o buf ev en fl cn ct)
    = match fl with
      | true :: fl' => (Raise IOError, Store o buf (ev ++ [EvShow]) en fl' cn ct)
      | _ => (match tail fl with true :: _ => Raise IOError | _ => Ok tt end,
              Store o buf (ev ++ [EvShow; EvShow]) en (tail (tail fl)) cn ct)
      end).
  { unfold Sparkle.draw. step. replace (Z.to_nat (Sparkle._num_sparkles o)) with 0%nat by lia.
    cbn [repeatM]. step. cbn [for_each]. step.
    destruct fl as [|[] fl'].
    - step by (rewrite show_run; reflexivity). step.
      rewrite show_run, <- app_assoc. reflexivity.
    - stop by (rewrite show_run; reflexivity). reflexivity.
    - step by (rewrite show_run; reflexivity). step.
      rewrite show_run, <- app_assoc. reflexivity. }
  rewrite Hrun.
  destruct fl as [|[] [|[] fl']]; eexists _, _; (split; [reflexivity|]);
    cbn [pixel_object entropy events tail];
    rewrite drop_app_length;
    repeat split; reflexivity.
Qed.

Lemma sparkle_draw_no_sparkles_witness :
  exists r s',
    Sparkle.draw (world (Sparkle.mk (PTuple [255; 0; 0]) (PTuple [63; 0; 0])
                                    (PTuple [25; 0; 0]) 0)
                        [PTuple [1; 1; 1]] [4] [false; true] [])
    = (r, s')
    /\ pixel_object s' = [PTuple [1; 1; 1]]
    /\ entropy s' = [4]
    /\ writes (drop 0 (events s')) = []
    /\ events s' = [] ++ [EvShow; EvShow]
    /\ r = Raise IOError.
Proof.
  apply (sparkle_draw_no_sparkles
           (world (Sparkle.mk (PTuple [255; 0; 0]) (PTuple [63; 0; 0])
                              (PTuple [25; 0; 0]) 0)
                  [PTuple [1; 1; 1]] [4] [false; true] [])).
  simpl. lia.
Defined.

Lemma decay_buffer_two half dim pixels : forall a b,
  Forall (fun p => 0 <= p <= 0) pixels ->
  pixels <> [] ->
  decay_buffer half dim pixels [a; b] = [half; dim].
Proof.
  assert (Hstay : forall pixels, Forall (fun p => 0 <= p <= 0) pixels ->
            decay_buffer half dim pixels [half; dim] = [half; dim]).
  { clear. induction 1 as [|p pixels Hp _ IH]; [reflexivity|].
    assert (p = 0) as -> by lia. exact IH. }
  intros a b Hall Hne. destruct Hall as [|p pixels Hp Hrest]; [congruence|].
  assert (p = 0) as -> by lia. apply (Hstay pixels Hrest).
Qed.

(** X5: on the shortest strip allowed, two pixels, every sparkle falls on
    pixel 0: a tick with at least one sparkle whose first flush returns
    leaves exactly [half, dim] in the buffer. *)
Theorem sparkle_draw_two_pixels (s : store Sparkle.t) :
  length (pixel_object s) = 2%nat ->
  1 <= Sparkle._num_sparkles (self s) ->
  ~ flush_fails 0 s ->
  exists r s',
    Sparkle.draw s = (r, s')
    /\ pixel_object s'
       = [Sparkle._half_color (self s); Sparkle._dim_color (self s)].
Proof.
  destruct s as [o buf ev en fl cn ct]. unfold flush_fails.
  cbn [self pixel_object show_faults]. intros Hlen Hnum Hfirst.
  destruct (draw_run o buf ev en fl cn ct ltac:(rewrite Hlen; lia))
    as (pixels & en' & Hk & Hall & Hrun).
  rewrite Hlen in Hall.
  assert (Hne : pixels <> []).
  { intros ->. simpl in Hk. lia. }
  assert (Hbright : exists a b,
            bright_buffer (Sparkle._color o) pixels buf = [a; b]).
  { pose proof (bright_buffer_length (Sparkle._color o) pixels buf) as Hl.
    rewrite Hlen in Hl.
    destruct (bright_buffer (Sparkle._color o) pixels buf) as [|a [|b [|? ?]]];
      try discriminate. eauto. }
  destruct Hbright as (a & b & Hbright). rewrite Hbright in Hrun.
  rewrite (decay_buffer_two _ _ pixels a b Hall Hne) in Hrun.
  destruct fl as [|[] fl']; [| exfalso; apply Hfirst; reflexivity |];
    eexists _, _; (split; [exact Hrun|]); reflexivity.
Qed.

Lemma sparkle_draw_two_pixels_witness :
  exists r s',
    Sparkle.draw (world (Sparkle.mk (PTuple [255; 0; 0]) (PTuple [63; 0; 0])
                                    (PTuple [25; 0; 0]) 2)
                        [PTuple [9; 9; 9]; PTuple [8; 8; 8]] [5; 11] [] [])
    = (r, s')
    /\ pixel_object s' = [PTuple [63; 0; 0]; PTuple [25; 0; 0]].
Proof.
  apply (sparkle_draw_two_pixels
           (world (Sparkle.mk (PTuple [255; 0; 0]) (PTuple [63; 0; 0])
                              (PTuple [25; 0; 0]) 2)
                  [PTuple [9; 9; 9]; PTuple [8; 8; 8]] [5; 11] [] [])).
  - reflexivity.
  - simpl. lia.
  - unfold flush_fails. simpl. discriminate.
Defined.

(** X6: a colour change after a tick carries the sparkles over.  After a
    [draw()] whose first flush returned, [_recompute_color(new)] leaves
    every slot the tick touched on new // 4 or new // 10, and gives every
    other slot the repaint of the value it had before the tick. *)
Theorem sparkle_draw_then_recompute (s : store Sparkle.t) (color : list Z) :
  2 <= Z.of_nat (length (pixel_object s)) ->
  ~ flush_fails 0 s ->
  exists pixels r s1 s2,
    Sparkle.draw s = (r, s1)
    /\ Sparkle._recompute_color color s1 = (Ok tt, s2)
    /\ length pixels = Z.to_nat (Sparkle._num_sparkles (self s))
    /\ (forall j, touched pixels j ->
          decayed (PTuple (map (fun c => c / 4) color))
                  (PTuple (map (fun c => c / 10) color)) (pixel_object s2) j)
    /\ (forall j, ~ touched pixels j ->
          pixel_object s2 !! j
          = recompute_spec (Sparkle._half_color (self s)) (Sparkle._dim_color (self s))
              (PTuple (map (fun c => c / 4) color))
              (PTuple (map (fun c => c / 10) color)) (pixel_object s) !! j).
Proof.
  destruct s as [o buf ev en fl cn ct]. unfold flush_fails.
  cbn [self pixel_object show_faults]. intros Hlen Hfirst.
  destruct (draw_run o buf ev en fl cn ct Hlen) as (pixels & en' & Hk & Hall & Hrun).
  set (buf1 := decay_buffer (Sparkle._half_color o) (Sparkle._dim_color o) pixels
                 (bright_buffer (Sparkle._color o) pixels buf)) in *.
  assert (Htouched : forall j, touched pixels j ->
            decayed (Sparkle._half_color o) (Sparkle._dim_color o) buf1 j).
  { intros j Hj. apply decay_buffer_touched; [|exact Hj].
    rewrite bright_buffer_length. exact Hall. }
  assert (Hother : forall j, ~ touched pixels j -> buf1 !! j = buf !! j).
  { intros j Hj. unfold buf1. rewrite decay_buffer_other by exact Hj.
    apply bright_buffer_other, untouched_bright, Hj. }
  exists pixels.
  destruct fl as [|[] fl']; [| exfalso; apply Hfirst; reflexivity |];
    eexists _, _, _; (split; [exact Hrun|]);
    (split; [apply recompute_color_run|]); (split; [exact Hk|]);
    cbn [self pixel_object]; unfold recompute_spec, decayed, shade;
    (split; intros j Hj; rewrite !list_lookup_fmap;
     [ destruct (Htouched j Hj) as [Hv|Hv]; rewrite Hv; cbn [fmap option_fmap option_map];
       unfold py_eq;
       [ rewrite bool_decide_eq_true_2 by reflexivity; auto
       | destruct (bool_decide _); [auto|];
         rewrite bool_decide_eq_true_2 by reflexivity; auto ]
     | rewrite (Hother j Hj); reflexivity ]).
Qed.

Lemma sparkle_draw_then_recompute_witness :
  exists pixels r s1 s2,
    Sparkle.draw (world (Sparkle.mk (PTuple [255; 0; 0]) (PTuple [63; 0; 0])
                                    (PTuple [25; 0; 0]) 2)
                        (replicate 5 (PTuple [0; 0; 0])) [1; 2] [] [])
    = (r, s1)
    /\ Sparkle._recompute_color [0; 200; 40] s1 = (Ok tt, s2)
    /\ length pixels = 2%nat
    /\ (forall j, touched pixels j ->
          decayed (PTuple (map (fun c => c / 4) [0; 200; 40]))
                  (PTuple (map (fun c => c / 10) [0; 200; 40])) (pixel_object s2) j)
    /\ (forall j, ~ touched pixels j ->
          pixel_object s2 !! j
          = recompute_spec (PTuple [63; 0; 0]) (PTuple [25; 0; 0])
              (PTuple (map (fun c => c / 4) [0; 200; 40]))
              (PTuple (map (fun c => c / 10) [0; 200; 40]))
              (replicate 5 (PTuple [0; 0; 0])) !! j).
Proof.
  apply (sparkle_draw_then_recompute
           (world (Sparkle.mk (PTuple [255; 0; 0]) (PTuple [63; 0; 0])
                              (PTuple [25; 0; 0]) 2)
                  (replicate 5 (PTuple [0; 0; 0])) [1; 2] [] [])
           [0; 200; 40]).
  - simpl. lia.
  - unfold flush_fails. simpl. discriminate.
Defined.

(** X7: when the first flush returns and the second fails, [draw()]
    raises the error only after both write passes: two flushes were asked
    for and every touched slot already holds its decayed shade. *)
Theorem sparkle_draw_second_flush_fails (s : store Sparkle.t) :
  2 <= Z.of_nat (length (pixel_object s)) ->
  ~ flush_fails 0 s ->
  flush_fails 1 s ->
  exists pixels s',
    Sparkle.draw s = (Raise IOError, s')
    /\ events s' = events s
         ++ bright_events (Sparkle._color (self s)) pixels ++ [EvShow]
         ++ decay_events (Sparkle._half_color (self s))
                         (Sparkle._dim_color (self s)) pixels ++ [EvShow]
    /\ (forall j, touched pixels j ->
          decayed (Sparkle._half_color (self s)) (Sparkle._dim_color (self s))
                  (pixel_object s') j)
    /\ show_faults s' = drop 2 (show_faults s).
Proof.
  destruct s as [o buf ev en fl cn ct]. unfold flush_fails.
  cbn [self pixel_object events show_faults]. intros Hlen Hfirst Hsecond.
  destruct (draw_run o buf ev en fl cn ct Hlen) as (pixels & en' & Hk & Hall & Hrun).
  exists pixels.
  destruct fl as [|[] [|[] fl']]; try discriminate Hsecond;
    [exfalso; apply Hfirst; reflexivity|].
  eexists. split; [exact Hrun|]. cbn [events pixel_object show_faults].
  split; [reflexivity|]. split; [|reflexivity].
  intros j Hj. apply decay_buffer_touched; [|exact Hj].
  rewrite bright_buffer_length. exact Hall.
Qed.

Lemma sparkle_draw_second_flush_fails_witness :
  exists pixels s',
    Sparkle.draw (world (Sparkle.mk (PTuple [255; 0; 0]) (PTuple [63; 0; 0])
                                    (PTuple [25; 0; 0]) 1)
                        (replicate 3 (PTuple [0; 0; 0])) [1] [false; true; false] [])
    = (Raise IOError, s')
    /\ events s' = []
         ++ bright_events (PTuple [255; 0; 0]) pixels ++ [EvShow]
         ++ decay_events (PTuple [63; 0; 0]) (PTuple [25; 0; 0]) pixels ++ [EvShow]
    /\ (forall j, touched pixels j ->
          decayed (PTuple [63; 0; 0]) (PTuple [25; 0; 0]) (pixel_object s') j)
    /\ show_faults s' = [false].
Proof.
  apply (sparkle_draw_second_flush_fails
           (world (Sparkle.mk (PTuple [255; 0; 0]) (PTuple [63; 0; 0])
                              (PTuple [25; 0; 0]) 1)
                  (replicate 3 (PTuple [0; 0; 0])) [1] [false; true; false] [])).
  - simpl. lia.
  - unfold flush_fails. simpl. discriminate.
  - reflexivity.
Defined.

(** ** SparklePulse: construction and what a tick changes *)

(** X8: [SparklePulse._recompute_color] is the same repaint as
    [Sparkle]'s: it derives colour // 4 and colour // 10, rewrites the
    pixels that hold the old shades, changes no attribute but the two
    shades, and a second call with the same colour leaves the buffer as
    the first one left it. *)
Theorem pulse_recompute_color_repaints {F : Type} `{PyNum F}
    (s : store (SparklePulse.t F)) (color : list Z) :
  exists s1 s2,
    SparklePulse._recompute_color color s = (Ok tt, s1)
    /\ pixel_object s1
       = recompute_spec (SparklePulse._half_color (self s))
                        (SparklePulse._dim_color (self s))
                        (PTuple (map (fun c => c / 4) color))
                        (PTuple (map (fun c => c / 10) color)) (pixel_object s)
    /\ self s1
       = SparklePulse.mk
           (SparklePulse.max_intensity (self s)) (SparklePulse.min_intensity (self s))
           (SparklePulse._period (self s)) (SparklePulse._intensity_delta (self s))
           (SparklePulse._half_period (self s)) (SparklePulse._position_factor (self s))
           (SparklePulse._bpp (self s)) (SparklePulse._last_update (self s))
           (SparklePulse._cycle_position (self s))
           (PTuple (map (fun c => c / 4) color))
           (PTuple (map (fun c => c / 10) color))
           (SparklePulse._color (self s))
    /\ SparklePulse._recompute_color color s1 = (Ok tt, s2)
    /\ pixel_object s2 = pixel_object s1
    /\ self s2 = self s1.
Proof.
  destruct s as [o buf ev en fl cn ct].
  eexists _, _. split; [apply pulse_recompute_color_run|].
  cbn [self pixel_object]. do 2 (split; [reflexivity|]).
  split; [apply pulse_recompute_color_run|].
  cbn [self pixel_object SparklePulse._half_color SparklePulse._dim_color
       SparklePulse.set_half_color SparklePulse.set_dim_color].
  split; [apply recompute_spec_same|].
  destruct o; reflexivity.
Qed.

Lemma pulse_draw_short {F : Type} `{PyNum F} (o : SparklePulse.t F)
    buf ev en fl cn ct :
  Z.of_nat (length buf) < 2 ->
  SparklePulse.draw (Store o buf ev en fl cn ct)
  = (Raise (ValueError "empty range for randrange()"), Store o buf ev en fl cn ct).
Proof.
  intros Hlen. unfold SparklePulse.draw. step.
  eapply bind_stop; [|reflexivity].
  unfold randint. destruct (Z.ltb_spec (Z.of_nat (length buf) - 2) 0); [reflexivity|lia].
Qed.

Lemma same_config_refl {F : Type} (o : SparklePulse.t F) : same_config o o.
Proof. unfold same_config. auto 12. Qed.

(** A tick whose arithmetic raises has assigned at most [_last_update]
    and [_cycle_position]. *)
Lemma pulse_draw_raise_config {F : Type} `{PyNum F} (o : SparklePulse.t F)
    buf ev en fl cn ct e :
  2 <= Z.of_nat (length buf) ->
  tick o (next_reading (Store o buf ev en fl cn ct)) = Raise e ->
  exists s',
    SparklePulse.draw (Store o buf ev en fl cn ct) = (Raise e, s')
    /\ same_config o (self s').
Proof.
  intros Hlen Htick.
  destruct (randint_run o buf ev en fl cn ct 0 (Z.of_nat (length buf) - 2)
              ltac:(lia)) as (pixel & en' & Hpick & Hpixel).
  change (next_reading (Store o buf ev en fl cn ct))
    with (next_reading (Store o buf ev en' fl cn ct)) in *.
  set (now := next_reading (Store o buf ev en' fl cn ct)) in *.
  unfold tick in Htick.
  destruct (int_truediv (now - SparklePulse._last_update o) NANOS_PER_SECOND)
    as [dt|e1] eqn:Hdt; cbn [result_bind] in Htick.
  2:{ injection Htick as ->. eexists. split.
      { unfold SparklePulse.draw.
        step. step by exact Hpick. step by apply monotonic_ns_run. fold now.
        step. rewrite Hdt. stop by reflexivity. reflexivity. }
      apply same_config_refl. }
  destruct (fmod (fadd (SparklePulse._cycle_position o) dt) (SparklePulse._period o))
    as [pos|e1] eqn:Hpos; cbn [result_bind] in Htick.
  2:{ injection Htick as ->. eexists. split.
      { unfold SparklePulse.draw.
        step. step by exact Hpick. step by apply monotonic_ns_run. fold now.
        step. rewrite Hdt. step. step. step.
        cbn [SparklePulse.set_last_update SparklePulse._cycle_position
             SparklePulse._period].
        rewrite Hpos. stop by reflexivity. reflexivity. }
      cbn [self]. unfold same_config. cbn. auto 12. }
  destruct (SparklePulse.scaled o (SparklePulse.intensity o pos))
    as [color|e1] eqn:Hcolor; cbn [result_bind] in Htick; [discriminate|].
  injection Htick as ->. eexists. split.
  { unfold SparklePulse.draw.
    step. step by exact Hpick. step by apply monotonic_ns_run. fold now.
    step. rewrite Hdt. step. step. step.
    cbn [SparklePulse.set_last_update SparklePulse._cycle_position
         SparklePulse._period].
    rewrite Hpos. step. step. step.
    change (SparklePulse.scaled _ (SparklePulse.intensity _ pos))
      with (SparklePulse.scaled o (SparklePulse.intensity o pos)).
    rewrite Hcolor. stop by reflexivity. reflexivity. }
  cbn [self]. unfold same_config. cbn. auto 12.
Qed.

(** X9: whatever happens in a tick (the arithmetic raises, the flush
    fails, the buffer is too short), [SparklePulse.draw] assigns no
    attribute but [_last_update] and [_cycle_position]: the period, both
    intensities, the derived factors, [_bpp], the colour and the shades are
    as before, and the buffer keeps its length. *)
Theorem pulse_draw_keeps_config {F : Type} `{PyNum F} (s : store (SparklePulse.t F)) :
  exists r s',
    SparklePulse.draw s = (r, s')
    /\ same_config (self s) (self s')
    /\ length (pixel_object s') = length (pixel_object s).
Proof.
  destruct s as [o buf ev en fl cn ct]. cbn [self pixel_object].
  destruct (Z.lt_ge_cases (Z.of_nat (length buf)) 2) as [Hshort|Hlen].
  { eexists _, _. split; [apply pulse_draw_short; exact Hshort|].
    split; [apply same_config_refl | reflexivity]. }
  assert (Hlen' : 2 <= Z.of_nat (length buf)) by lia.
  destruct (tick o (next_reading (Store o buf ev en fl cn ct)))
    as [[pos color]|e] eqn:Htick.
  - destruct (pulse_draw_run o buf ev en fl cn ct pos color Hlen' Htick)
      as (pixel & en' & Hpixel & Hrun).
    eexists _, _. split; [exact Hrun|]. cbn [self pixel_object].
    split; [unfold same_config; cbn; auto 12 | apply length_insert].
  - destruct (pulse_draw_raise o buf ev en fl cn ct e Hlen' Htick)
      as (s1 & Hrun1 & Hbuf & _).
    destruct (pulse_draw_raise_config o buf ev en fl cn ct e Hlen' Htick)
      as (s2 & Hrun2 & Hconf).
    rewrite Hrun1 in Hrun2. injection Hrun2 as <-.
    eexists _, _. split; [exact Hrun1|]. split; [exact Hconf|].
    rewrite Hbuf. reflexivity.
Qed.

Lemma range_length n : length (range n) = Z.to_nat n.
Proof. unfold range. rewrite length_map, length_seq. reflexivity. Qed.

(** X10: a tick whose arithmetic goes through records the clock reading
    it took in [_last_update] and the new phase in [_cycle_position], and
    the list it writes has exactly [_bpp] entries (the width of the
    buffer's first pixel at construction), however many channels the base
    colour has. *)
Theorem pulse_draw_advances {F : Type} `{PyNum F} (s : store (SparklePulse.t F))
    (pos : F) (color : list Z) :
  2 <= Z.of_nat (length (pixel_object s)) ->
  tick (self s) (next_reading s) = Ok (pos, color) ->
  exists pixel r s',
    SparklePulse.draw s = (r, s')
    /\ SparklePulse._last_update (self s') = next_reading s
    /\ SparklePulse._cycle_position (self s') = pos
    /\ clock_now s' = next_reading s
    /\ clock_ticks s' = tail (clock_ticks s)
    /\ pixel_object s' !! Z.to_nat pixel = Some (PList color)
    /\ length color = Z.to_nat (SparklePulse._bpp (self s)).
Proof.
  destruct s as [o buf ev en fl cn ct]. cbn [self pixel_object].
  intros Hlen Htick.
  destruct (pulse_draw_run o buf ev en fl cn ct pos color Hlen Htick)
    as (pixel & en' & Hpixel & Hrun).
  exists pixel. eexists _, _. split; [exact Hrun|].
  cbn [self pixel_object clock_now clock_ticks SparklePulse._last_update
       SparklePulse._cycle_position SparklePulse.set_cycle_position
       SparklePulse.set_last_update].
  do 4 (split; [reflexivity|]).
  split; [apply list_lookup_insert_eq; lia|].
  unfold tick in Htick.
  destruct (int_truediv _ _) as [dt|]; [|discriminate]. cbn [result_bind] in Htick.
  destruct (fmod _ _) as [pos'|]; [|discriminate]. cbn [result_bind] in Htick.
  destruct (SparklePulse.scaled o (SparklePulse.intensity o pos'))
    as [color'|] eqn:Hcolor; [|discriminate].
  cbn [result_bind] in Htick. injection Htick as -> ->.
  apply map_result_Forall2, Forall2_length in Hcolor.
  rewrite <- Hcolor. apply range_length.
Qed.

Lemma pulse_draw_advances_witness :
  exists pixel r s',
    SparklePulse.draw scenario_two = (r, s')
    /\ SparklePulse._last_update (self s') = next_reading scenario_two
    /\ SparklePulse._cycle_position (self s') = 2%float
    /\ clock_now s' = next_reading scenario_two
    /\ clock_ticks s' = tail (clock_ticks scenario_two)
    /\ pixel_object s' !! Z.to_nat pixel = Some (PList [100; 100; 100])
    /\ length [100; 100; 100] = Z.to_nat (SparklePulse._bpp (self scenario_two)).
Proof.
  apply (pulse_draw_advances scenario_two 2%float [100; 100; 100]).
  - vm_compute. discriminate.
  - vm_compute. reflexivity.
Defined.

(** ** SparklePulse.__init__ on floats *)

Lemma float_of_Z_small :
  Binary64.float_of_Z 0 = 0%float
  /\ Binary64.float_of_Z 1 = 1%float
  /\ Binary64.float_of_Z 2 = 2%float.
Proof. repeat split; vm_compute; reflexivity. Qed.

Lemma float_div_two (x : float) : fdiv x (of_int 2) = Ok (x / 2)%float.
Proof.
  cbn [fdiv of_int Binary64.num]. unfold Binary64.float_div.
  destruct float_of_Z_small as (_ & _ & ->).
  change (PrimFloat.eqb 2 zero) with false. reflexivity.
Qed.

Lemma float_div_one (x : float) :
  fdiv (of_int 1) x
  = if PrimFloat.eqb x zero then Raise ZeroDivisionError else Ok (1 / x)%float.
Proof.
  cbn [fdiv of_int Binary64.num]. unfold Binary64.float_div.
  destruct float_of_Z_small as (_ & -> & _). reflexivity.
Qed.

(** X11: on floats, [SparklePulse.__init__] succeeds on a buffer of at
    least two tuples as soon as half the period is not zero: none of its
    divisions raises, also for a negative, infinite or NaN period.  The
    object then has delta = max - min, half_period = period / 2,
    position_factor = 1 / half_period, [_bpp] the width of pixel 0, phase
    0 and [_last_update] the first clock reading, and the buffer is as
    before, with no pixel written. *)
Theorem pulse_init_builds_binary64 (s : store (SparklePulse.t float))
    (color : list Z) (period max_intensity min_intensity : float)
    (channels : list Z) :
  2 <= Z.of_nat (length (pixel_object s)) ->
  pixel_object s !! 0%nat = Some (PTuple channels) ->
  Forall (fun p => p <> PNone) (pixel_object s) ->
  PrimFloat.eqb (period / 2) 0 = false ->
  exists s' scan,
    SparklePulse.__init__ color period max_intensity min_intensity s = (Ok tt, s')
    /\ self s' = SparklePulse.mk max_intensity min_intensity period
                   (max_intensity - min_intensity)%float (period / 2)%float
                   (1 / (period / 2))%float (Z.of_nat (length channels))
                   (next_reading s) 0%float
                   (PTuple (map (fun c => c / 4) color))
                   (PTuple (map (fun c => c / 10) color)) (PTuple color)
    /\ configured (self s')
    /\ pixel_object s' = pixel_object s
    /\ events s' = events s ++ scan
    /\ writes scan = [].
Proof.
  destruct s as [o buf ev en fl cn ct]. cbn [pixel_object].
  intros Hlen Hfirst Hbuf Hhalf.
  assert (Hfactor : fdiv (of_int 1) (period / 2)%float = Ok (1 / (period / 2))%float).
  { rewrite float_div_one. change zero with 0%float. rewrite Hhalf. reflexivity. }
  eexists _, _. split.
  { eapply (pulse_init_run o buf ev en fl cn ct color period max_intensity
              min_intensity (period / 2)%float (1 / (period / 2))%float
              (PTuple channels) (Z.of_nat (length channels)) Hlen).
    - apply float_div_two.
    - exact Hfactor.
    - exact Hfirst.
    - reflexivity. }
  cbn [self pixel_object events entropy clock_now].
  split.
  { cbn [of_int fsub Binary64.num]. destruct float_of_Z_small as (-> & _ & _).
    reflexivity. }
  split.
  { unfold configured.
    cbn [SparklePulse._intensity_delta SparklePulse.max_intensity
         SparklePulse.min_intensity SparklePulse._period SparklePulse._half_period
         SparklePulse._position_factor].
    split; [reflexivity|]. split; [apply float_div_two | exact Hfactor]. }
  split; [apply recompute_spec_unset; exact Hbuf|].
  split; [reflexivity|].
  change (writes (EvGet 0 :: scan_events PNone PNone (shade 4 color)
                                         (shade 10 color) 0 buf))
    with (writes (scan_events PNone PNone (shade 4 color) (shade 10 color) 0 buf)).
  apply scan_events_unset. exact Hbuf.
Qed.

Lemma pulse_init_builds_binary64_witness :
  exists s' scan,
    SparklePulse.__init__ [90; 170; 180] 5%float seven_tenths 0%float half_period_strip
    = (Ok tt, s')
    /\ self s' = SparklePulse.mk seven_tenths 0%float 5%float
                   (seven_tenths - 0)%float (5 / 2)%float
                   (1 / (5 / 2))%float (Z.of_nat (length [0; 0; 0]))
                   (next_reading half_period_strip) 0%float
                   (PTuple (map (fun c => c / 4) [90; 170; 180]))
                   (PTuple (map (fun c => c / 10) [90; 170; 180]))
                   (PTuple [90; 170; 180])
    /\ configured (self s')
    /\ pixel_object s' = pixel_object half_period_strip
    /\ events s' = events half_period_strip ++ scan
    /\ writes scan = [].
Proof.
  apply (pulse_init_builds_binary64 half_period_strip [90; 170; 180]
           5%float seven_tenths 0%float [0; 0; 0]).
  - vm_compute. discriminate.
  - reflexivity.
  - repeat constructor; discriminate.
  - reflexivity.
Defined.

(** X12: on floats, a period whose half is zero (the period is zero, or
    so small that halving it underflows) makes [SparklePulse.__init__]
    raise [ZeroDivisionError] at [1 / self._half_period], before the buffer
    is read, the clock consulted or the colour stored. *)
Theorem pulse_init_zero_period_binary64 (s : store (SparklePulse.t float))
    (color : list Z) (period max_intensity min_intensity : float) :
  2 <= Z.of_nat (length (pixel_object s)) ->
  PrimFloat.eqb (period / 2) 0 = true ->
  exists s',
    SparklePulse.__init__ color period max_intensity min_intensity s
    = (Raise ZeroDivisionError, s')
    /\ pixel_object s' = pixel_object s
    /\ events s' = events s
    /\ clock_now s' = clock_now s /\ clock_ticks s' = clock_ticks s
    /\ SparklePulse._color (self s') = SparklePulse._color (self s).
Proof.
  destruct s as [o buf ev en fl cn ct]. cbn [pixel_object self].
  intros Hlen Hhalf.
  eexists. split.
  { unfold SparklePulse.__init__. step.
    destruct (Z.ltb_spec (Z.of_nat (length buf)) 2); [lia|].
    do 4 step. rewrite float_div_two. step. step.
    rewrite float_div_one. change zero with 0%float. rewrite Hhalf.
    stop by reflexivity. reflexivity. }
  cbn [pixel_object events clock_now clock_ticks self]. 
  repeat split; reflexivity.
Qed.

Lemma pulse_init_zero_period_binary64_witness :
  exists s',
    SparklePulse.__init__ [255; 0; 0] smallest_double 1%float 0%float half_period_strip
    = (Raise ZeroDivisionError, s')
    /\ pixel_object s' = pixel_object half_period_strip
    /\ events s' = events half_period_strip
    /\ clock_now s' = clock_now half_period_strip
    /\ clock_ticks s' = clock_ticks half_period_strip
    /\ SparklePulse._color (self s') = SparklePulse._color (self half_period_strip).
Proof.
  apply (pulse_init_zero_period_binary64 half_period_strip [255; 0; 0]
           smallest_double 1%float 0%float).
  - vm_compute. discriminate.
  - reflexivity.
Defined.

(** The sibling class on the same strip: [Sparkle] hands the colour to
    the buffer as it is, so the RGB colour (255, 0, 0) on RGBW pixels is
    constructed and drawn without an error. *)
Example sparkle_draw_rgb_on_rgbw :
  exists s1 s2,
    Sparkle.__init__ [255; 0; 0] 1
      (world Sparkle.blank (replicate 2 (PTuple [0; 0; 0; 0])) [] [] [])
    = (Ok tt, s1)
    /\ Sparkle.draw s1 = (Ok tt, s2)
    /\ pixel_object s2 = [PTuple [63; 0; 0]; PTuple [25; 0; 0]].
Proof.
  eexists _, _. split; [vm_compute; reflexivity|].
  split; [vm_compute; reflexivity|]. reflexivity.
Qed.
